(** * The native conference screen (react/features/conference/components/native)

    A shallow embedding of the conference page of the mobile application and
    the properties of its state projection, its view composition and its
    hardware back button handling.

    Two variants of the component are covered:
    - [ConferenceJs]: src/react/features/conference/components/native/Conference.js
    - [Part000]:      src/unnamed/part_000
    What the two files define alike is defined once, outside the modules. *)

From Stdlib Require Import ZArith Lia.
From stdpp Require Import base list strings gmap.

Local Open Scope string_scope.
Local Open Scope list_scope.

(** ** JavaScript values *)

(** The component types the two files put into their view trees. *)
Inductive Component :=
| Fragment | Container | StatusBar | SafeAreaView
| TileView | LargeVideo | TintedView | LoadingIndicator
| DisplayNameLabel | Toolbox | Filmstrip.

(** The values the code handles. Objects, functions and symbols only matter
    through their identity, a reference. Numbers are the integers and NaN.
    A React element carries its type, its props and its children. *)
#[warnings="-register-all"]
Inductive jsval :=
| VUndefined
| VNull
| VBool (b : bool)
| VNum (n : Z)
| VNaN
| VStr (s : string)
| VObj (ref : nat)
| VError (message : string)
| VElem (type : Component) (props : list (string * jsval)) (children : list jsval).

(** ToBoolean: what [if], [!], [&&], [||], [?:] and [Boolean()] test. *)
Definition truthy (v : jsval) : bool :=
  match v with
  | VUndefined | VNull | VNaN => false
  | VBool b => b
  | VNum n => negb (n =? 0)%Z
  | VStr s => negb (String.eqb s "")
  | VObj _ | VError _ | VElem _ _ _ => true
  end.

(** [Boolean(v)] *)
Definition Boolean (v : jsval) : bool := truthy v.

(** [a && b]: the left operand when it is falsy, else the right one. *)
Definition js_and (a b : jsval) : jsval := if truthy a then b else a.

(** [a || b]: the left operand when it is truthy, else the right one. *)
Definition js_or (a b : jsval) : jsval := if truthy a then a else b.

(** [!a] *)
Definition js_not (a : jsval) : jsval := VBool (negb (truthy a)).

(** [v === 'literal']: strict equality against a string literal holds for
    that very string and for no value of another type. *)
Definition strict_equals_string (v : jsval) (literal : string) : bool :=
  match v with
  | VStr s => String.eqb s literal
  | _ => false
  end.

(** [a === b] on references (symbols, objects). *)
Definition strict_equals_ref (a b : nat) : bool := Nat.eqb a b.

Declare Scope js_scope.
Delimit Scope js_scope with js.
Infix "&&" := js_and : js_scope.
Infix "||" := js_or : js_scope.
Notation "! a" := (js_not a) (at level 35, right associativity) : js_scope.

(** Exceptions a piece of code can raise, and results of code that may raise. *)
Inductive JsError :=
| ReferenceError (identifier : string)
| TypeError (message : string).

Inductive Result (A : Type) :=
| Ok (a : A)
| Throw (e : JsError).
Arguments Ok {A} a.
Arguments Throw {A} e.

#[global] Instance Result_ret : MRet Result := λ A a, Ok a.

#[global] Instance Result_bind : MBind Result := λ A B k r,
  match r with
  | Ok a => k a
  | Throw e => Throw e
  end.

(** ** The redux state read by [_mapStateToProps] *)

(** state['features/base/connection'] *)
Record ConnectionState := {
  connecting : jsval;
  connection : jsval
}.

(** state['features/base/conference'] *)
Record ConferenceState := {
  conference : jsval;
  joining : jsval;
  membersOnly : jsval;
  leaving : jsval
}.

(** state['features/base/responsive-ui'] *)
Record ResponsiveUiState := {
  aspectRatio : nat;
  reducedUI : bool
}.

(** state['features/large-video'] *)
Record LargeVideoState := {
  participantId : jsval
}.

Record State := {
  features_base_connection : ConnectionState;
  features_base_conference : ConferenceState;
  features_base_responsive_ui : ResponsiveUiState;
  features_large_video : LargeVideoState
}.

(** ** Props *)

(** The part of [AbstractProps] that this component reads. *)
Record AbstractProps := {
  abstract_shouldDisplayTileView : bool
}.

(** [this.props], of [type Props = AbstractProps & {...}]. The fields
    annotated [boolean] are [bool], except [_pictureInPictureEnabled], which
    holds a feature flag's value as the flag store returned it.
    [_aspectRatio] is a Symbol. *)
Record Props := {
  _shouldDisplayTileView : bool;
  _aspectRatio : nat;
  _calendarEnabled : bool;
  _connecting : bool;
  _filmstripVisible : bool;
  _largeVideoParticipantId : jsval;
  _pictureInPictureEnabled : jsval;
  _toolboxEnabled : bool;
  _reducedUI : bool;
  _toolboxVisible : bool
}.

(** A mounted component instance: its props and the three handlers the
    constructor binds once ([this._onClick = this._onClick.bind(this)], ...),
    each a function object of its own. *)
Record Conference := {
  props : Props;
  bound_onClick : nat;
  bound_onHardwareBackPress : nat;
  bound_setToolboxVisible : nat
}.

(** ** Collaborators

    Functions and constants the two files import from other modules of the
    application. They are taken as parameters. *)
Class Imports := {
  abstractMapStateToProps : State → AbstractProps;
  isCalendarEnabled : State → bool;
  isFilmstripVisible : State → bool;
  isToolboxVisible : State → bool;
  getFeatureFlag : State → string → jsval;
  getConferenceName : State → jsval;
  isNarrowAspectRatio : Conference → bool;
  PIP_ENABLED : string;
  ASPECT_RATIO_NARROW : nat;
  styles_conference : jsval;
  styles_toolboxAndFilmstripContainer : jsval
}.

(** ** View trees *)

#[global] Instance Component_eq_dec : EqDecision Component.
Proof. solve_decision. Defined.

(** What React mounts for a child value: booleans, [null] and [undefined]
    render nothing, a fragment stands for its children, any other value is a
    node of the tree. *)
Fixpoint mount (v : jsval) : list jsval :=
  match v with
  | VUndefined | VNull | VBool _ => []
  | VElem Fragment _ children => flat_map mount children
  | VElem type props children => [VElem type props (flat_map mount children)]
  | _ => [v]
  end.

(** An element of type [c] occurs in the tree [v]. *)
Fixpoint occurs (c : Component) (v : jsval) : bool :=
  match v with
  | VElem type _ children => bool_decide (type = c) || existsb (occurs c) children
  | _ => false
  end.

(** An element of type [c] occurs in what is mounted for [v]. *)
Definition renders (c : Component) (v : jsval) : bool :=
  existsb (occurs c) (mount v).

(** The value of a prop of an element, [undefined] when it is not given. *)
Definition prop_of (name : string) (v : jsval) : jsval :=
  match v with
  | VElem _ props _ =>
      match List.find (λ kv, String.eqb (fst kv) name) props with
      | Some kv => snd kv
      | None => VUndefined
      end
  | _ => VUndefined
  end.

Definition type_of (v : jsval) : option Component :=
  match v with
  | VElem type _ _ => Some type
  | _ => None
  end.

(** ** What both files define alike: the reduced UI *)

(** [_renderContentForReducedUi()] *)
Definition _renderContentForReducedUi (this : Conference) : jsval :=
  let _connecting := _connecting (props this) in
  VElem Fragment [] [
    VElem LargeVideo [("onClick", VObj (bound_onClick this))] [];
    (VBool _connecting
       && VElem TintedView [] [
            VElem LoadingIndicator [] []
          ])%js
  ].

(** [_renderConferenceModals()] *)
Definition _renderConferenceModals (this : Conference) : list jsval := [].

(** ** Conference.js *)
Module ConferenceJs.
Section WithImports.
Context `{Imports}.

(** [_renderContent()] *)
Definition _renderContent (this : Conference) : Result jsval :=
  let _aspectRatio := _aspectRatio (props this) in
  let _connecting := _connecting (props this) in
  let _filmstripVisible := _filmstripVisible (props this) in
  let _largeVideoParticipantId := _largeVideoParticipantId (props this) in
  let _reducedUI := _reducedUI (props this) in
  let _shouldDisplayTileView := _shouldDisplayTileView (props this) in
  let _toolboxVisible := _toolboxVisible (props this) in
  let _toolboxEnabled := _toolboxEnabled (props this) in
  let showGradient := _toolboxVisible in
  let applyGradientStretching :=
    (_filmstripVisible && strict_equals_ref _aspectRatio ASPECT_RATIO_NARROW
       && negb _shouldDisplayTileView)%bool in
  if _reducedUI then
    mret (_renderContentForReducedUi this)
  else
    mret (VElem Fragment [] [
      (if _toolboxEnabled
       then if _shouldDisplayTileView
            then VElem TileView [("onClick", VObj (bound_onClick this))] []
            else VElem LargeVideo [("whiteback", VBool false);
                                   ("onClick", VObj (bound_onClick this))] []
       else VElem LargeVideo [("whiteback", VBool true);
                              ("onClick", VObj (bound_onClick this))] []);
      (VBool _toolboxEnabled && VBool _connecting
         && VElem TintedView [] [
              VElem LoadingIndicator [] []
            ])%js;
      VElem SafeAreaView [("pointerEvents", VStr "box-none");
                          ("style", styles_toolboxAndFilmstripContainer)] [
        (VBool _shouldDisplayTileView
           || VBool _toolboxEnabled
              && VElem DisplayNameLabel
                   [("participantId", _largeVideoParticipantId)] [])%js;
        (VBool _toolboxEnabled && VElem Toolbox [] [])%js;
        (if _shouldDisplayTileView
         then VUndefined
         else (VBool _toolboxEnabled && VElem Filmstrip [] [])%js)
      ]
    ]).

(** [render()] *)
Definition render (this : Conference) : Result jsval :=
  content ← _renderContent this;
  mret (VElem Container [("style", styles_conference)] [content]).

(** [_mapStateToProps(state)] *)
Definition _mapStateToProps (state : State) : Props :=
  let '{| connecting := connecting; connection := connection |} :=
    features_base_connection state in
  let '{| conference := conference; joining := joining;
          membersOnly := membersOnly; leaving := leaving |} :=
    features_base_conference state in
  let '{| aspectRatio := aspectRatio; reducedUI := reducedUI |} :=
    features_base_responsive_ui state in
  let connecting_ :=
    (connecting
       || (connection && (!membersOnly && (joining || (!conference && !leaving)))))%js in
  {| _shouldDisplayTileView :=
       abstract_shouldDisplayTileView (abstractMapStateToProps state);
     _aspectRatio := aspectRatio;
     _calendarEnabled := isCalendarEnabled state;
     _connecting := Boolean connecting_;
     _filmstripVisible := isFilmstripVisible state;
     _largeVideoParticipantId := participantId (features_large_video state);
     _pictureInPictureEnabled := getFeatureFlag state PIP_ENABLED;
     _toolboxEnabled :=
       if strict_equals_string (getConferenceName state) "toolbox_disabled"
       then false else true;
     _reducedUI := reducedUI;
     _toolboxVisible := isToolboxVisible state |}.

End WithImports.
End ConferenceJs.

(** ** part_000 *)
Module Part000.

(** The object [_mapStateToProps] returns in this file: it has no
    [_toolboxEnabled] key (the entry is commented out) and no [_aspectRatio]
    key (the aspect ratio comes from [makeAspectRatioAware]). *)
Module Mapped.
Record t := {
  _shouldDisplayTileView : bool;
  _calendarEnabled : bool;
  _connecting : bool;
  _filmstripVisible : bool;
  _largeVideoParticipantId : jsval;
  _pictureInPictureEnabled : jsval;
  _reducedUI : bool;
  _toolboxVisible : bool
}.
End Mapped.

(** The identifiers [_renderContent] declares, and those the module binds
    (its imports, the class and the function below it). *)
Definition renderContent_locals : list string :=
  ["_connecting"; "_filmstripVisible"; "_largeVideoParticipantId";
   "_reducedUI"; "_shouldDisplayTileView"; "_toolboxVisible";
   "showGradient"; "applyGradientStretching"].

Definition module_bindings : list string :=
  ["React"; "NativeModules"; "SafeAreaView"; "StatusBar"; "LinearGradient";
   "appNavigate"; "PIP_ENABLED"; "getFeatureFlag"; "TOOLBOX_ENABLED";
   "Container"; "LoadingIndicator"; "TintedView"; "connect";
   "isNarrowAspectRatio"; "makeAspectRatioAware"; "TestConnectionInfo";
   "ConferenceNotification"; "isCalendarEnabled"; "DisplayNameLabel";
   "SharedDocument"; "FILMSTRIP_SIZE"; "Filmstrip"; "isFilmstripVisible";
   "TileView"; "AddPeopleDialog"; "CalleeInfoContainer"; "LargeVideo";
   "BackButtonRegistry"; "isToolboxVisible"; "setToolboxVisible"; "Toolbox";
   "AbstractConference"; "abstractMapStateToProps"; "Labels";
   "LonelyMeetingExperience"; "NavigationBar"; "styles";
   "NAVBAR_GRADIENT_COLORS"; "Conference"; "_mapStateToProps"].

Section WithImports.
Context `{Imports}.

(** The global object, as far as it holds store states: an identifier that
    neither the function nor the module binds is looked up there. *)
Variable globalThis : gmap string State.

(** Evaluating an identifier that no enclosing scope binds: the value of
    the global object's property, a ReferenceError when there is none. *)
Definition free_identifier (name : string) : Result State :=
  match globalThis !! name with
  | Some v => Ok v
  | None => Throw (ReferenceError name)
  end.

(** [_renderContent()]. The identifier [state] it passes to
    [getFeatureFlag] is free in the file. *)
Definition _renderContent (this : Conference) : Result jsval :=
  let _connecting := _connecting (props this) in
  let _filmstripVisible := _filmstripVisible (props this) in
  let _largeVideoParticipantId := _largeVideoParticipantId (props this) in
  let _reducedUI := _reducedUI (props this) in
  let _shouldDisplayTileView := _shouldDisplayTileView (props this) in
  let _toolboxVisible := _toolboxVisible (props this) in
  let showGradient := _toolboxVisible in
  let applyGradientStretching :=
    (_filmstripVisible && isNarrowAspectRatio this
       && negb _shouldDisplayTileView)%bool in
  if _reducedUI then
    mret (_renderContentForReducedUi this)
  else
    surface ← (state ← free_identifier "state";
               mret (if truthy (getFeatureFlag state "toolbox.enabled")
                     then if _shouldDisplayTileView
                          then VElem TileView
                                 [("onClick", VObj (bound_onClick this))] []
                          else VElem LargeVideo
                                 [("whiteback", VBool false);
                                  ("onClick", VObj (bound_onClick this))] []
                     else VElem LargeVideo
                            [("whiteback", VBool true);
                             ("onClick", VObj (bound_onClick this))] []));
    overlay ← (state ← free_identifier "state";
               mret (getFeatureFlag state "toolbox.enabled" && VBool _connecting
                       && VElem TintedView [] [
                            VElem LoadingIndicator [] []
                          ])%js);
    label ← (if _shouldDisplayTileView
             then mret (VBool _shouldDisplayTileView)
             else state ← free_identifier "state";
                  mret (getFeatureFlag state "toolbox.enabled"
                          && VElem DisplayNameLabel
                               [("participantId", _largeVideoParticipantId)] [])%js);
    toolbox ← (state ← free_identifier "state";
               mret (getFeatureFlag state "toolbox.enabled"
                       && VElem Toolbox [] [])%js);
    filmstrip ← (if _shouldDisplayTileView
                 then mret VUndefined
                 else state ← free_identifier "state";
                      mret (getFeatureFlag state "toolbox.enabled"
                              && VElem Filmstrip [] [])%js);
    mret (VElem Fragment [] [
      surface;
      overlay;
      VElem SafeAreaView [("pointerEvents", VStr "box-none");
                          ("style", styles_toolboxAndFilmstripContainer)] [
        label;
        toolbox;
        filmstrip
      ]
    ]).

(** [render()] *)
Definition render (this : Conference) : Result jsval :=
  content ← _renderContent this;
  mret (VElem Container [("style", styles_conference)] [
    VElem StatusBar [("barStyle", VStr "light-content");
                     ("hidden", VBool true);
                     ("translucent", VBool true)] [];
    content
  ]).

(** [_mapStateToProps(state)] *)
Definition _mapStateToProps (state : State) : Mapped.t :=
  let '{| connecting := connecting; connection := connection |} :=
    features_base_connection state in
  let '{| conference := conference; joining := joining; leaving := leaving |} :=
    features_base_conference state in
  let '{| reducedUI := reducedUI |} := features_base_responsive_ui state in
  let connecting_ :=
    (connecting || (connection && (joining || (!conference && !leaving))))%js in
  {| Mapped._shouldDisplayTileView :=
       abstract_shouldDisplayTileView (abstractMapStateToProps state);
     Mapped._calendarEnabled := isCalendarEnabled state;
     Mapped._connecting := Boolean connecting_;
     Mapped._filmstripVisible := isFilmstripVisible state;
     Mapped._largeVideoParticipantId := participantId (features_large_video state);
     Mapped._pictureInPictureEnabled := getFeatureFlag state PIP_ENABLED;
     Mapped._reducedUI := reducedUI;
     Mapped._toolboxVisible := isToolboxVisible state |}.

End WithImports.
End Part000.

(** ** The world around the component *)

(** Modelled from the spec: the actions built by the two imported action
    creators, [setToolboxVisible] of the toolbox feature (the set toolbar
    visibility action) and [appNavigate] of the app feature (the navigate /
    hang-up action with its destination). *)
Inductive Action :=
| setToolboxVisible (visible : jsval)
| appNavigate (uri : jsval).

(** Calls received by the back button registry. *)
Inductive RegistryCall :=
| CallAddListener (listener : nat)
| CallRemoveListener (listener : nat).

(** Promises, after ECMAScript: a promise is pending, fulfilled or rejected;
    [then] and [catch] attach reactions, which run as microtasks once the
    promise is settled. *)
Inductive PromiseState :=
| Pending
| Fulfilled (value : jsval)
| Rejected (reason : jsval).

(** The one function the files pass to a promise: the arrow function
    [() => { this.props.dispatch(appNavigate(undefined)); }]. *)
Inductive Callback :=
| NavigateAway (this : Conference).

(** A reaction attached by [catch(onRejected)], with the promise [catch]
    returned. *)
Record Reaction := {
  onRejected : Callback;
  derived : nat
}.

Record Promise := {
  pstate : PromiseState;
  reactions : list Reaction;
  isHandled : bool
}.

(** A promise reaction job: a reaction and the settled state it reacts to. *)
Inductive Job :=
| ReactionJob (reaction : Reaction) (argument : PromiseState).

Record World := {
  dispatched : list Action;          (* what the store's dispatch received, oldest first *)
  registry_calls : list RegistryCall;(* calls of the back button registry, oldest first *)
  listeners : list nat;              (* the listeners the registry holds *)
  pip_requests : list nat;           (* promises returned by enterPictureInPicture() *)
  promises : list Promise;           (* the promises, by identity *)
  microtasks : list Job              (* the job queue *)
}.

Definition with_dispatched (f : list Action → list Action) (w : World) : World :=
  {| dispatched := f (dispatched w); registry_calls := registry_calls w;
     listeners := listeners w; pip_requests := pip_requests w;
     promises := promises w; microtasks := microtasks w |}.

Definition with_registry (calls : list RegistryCall) (ls : list nat) (w : World) : World :=
  {| dispatched := dispatched w; registry_calls := calls;
     listeners := ls; pip_requests := pip_requests w;
     promises := promises w; microtasks := microtasks w |}.

Definition with_pip_requests (f : list nat → list nat) (w : World) : World :=
  {| dispatched := dispatched w; registry_calls := registry_calls w;
     listeners := listeners w; pip_requests := f (pip_requests w);
     promises := promises w; microtasks := microtasks w |}.

Definition with_promises (f : list Promise → list Promise) (w : World) : World :=
  {| dispatched := dispatched w; registry_calls := registry_calls w;
     listeners := listeners w; pip_requests := pip_requests w;
     promises := f (promises w); microtasks := microtasks w |}.

Definition with_microtasks (f : list Job → list Job) (w : World) : World :=
  {| dispatched := dispatched w; registry_calls := registry_calls w;
     listeners := listeners w; pip_requests := pip_requests w;
     promises := promises w; microtasks := f (microtasks w) |}.

(** [this.props.dispatch(action)] *)
Definition dispatch (a : Action) (w : World) : World :=
  with_dispatched (λ log, log ++ [a]) w.

(** Modelled from the spec: [addListener] of the platform back-button
    registry, which is imported from mobile/back-button. The registry holds
    the registered listeners. *)
Definition BackButtonRegistry_addListener (listener : nat) (w : World) : World :=
  with_registry (registry_calls w ++ [CallAddListener listener])
                (listener :: listeners w) w.

(** Modelled from the spec: [removeListener] of the same registry. Removing
    a listener leaves no registration of it. *)
Definition BackButtonRegistry_removeListener (listener : nat) (w : World) : World :=
  with_registry (registry_calls w ++ [CallRemoveListener listener])
                (filter (λ l, l ≠ listener) (listeners w)) w.

(** A new promise in the given state; its identity is returned. *)
Definition new_promise (s : PromiseState) (w : World) : nat * World :=
  (length (promises w),
   with_promises (λ ps, ps ++ [{| pstate := s; reactions := []; isHandled := false |}]) w).

(** Settling a pending promise queues a job for each of its reactions; a
    settled promise stays as it is. *)
Definition settle (p : nat) (s : PromiseState) (w : World) : World :=
  match promises w !! p with
  | Some {| pstate := Pending; reactions := rs; isHandled := h |} =>
      with_microtasks (λ q, q ++ map (λ r, ReactionJob r s) rs)
        (with_promises
           (λ ps, <[p := {| pstate := s; reactions := []; isHandled := h |}]> ps) w)
  | _ => w
  end.

(** [Promise.reject(reason)] *)
Definition Promise_reject (reason : jsval) (w : World) : nat * World :=
  new_promise (Rejected reason) w.

(** [p.catch(onRejected)]: a new promise is returned; the reaction waits on a
    pending [p] and is queued at once for a settled one. Either way [p] now
    counts as handled. *)
Definition Promise_catch (p : nat) (cb : Callback) (w : World) : nat * World :=
  let '(d, w) := new_promise Pending w in
  let r := {| onRejected := cb; derived := d |} in
  match promises w !! p with
  | Some {| pstate := Pending; reactions := rs; isHandled := _ |} =>
      (d, with_promises
            (λ ps, <[p := {| pstate := Pending; reactions := rs ++ [r];
                             isHandled := true |}]> ps) w)
  | Some {| pstate := s; reactions := rs; isHandled := _ |} =>
      (d, with_microtasks (λ q, q ++ [ReactionJob r s])
            (with_promises
               (λ ps, <[p := {| pstate := s; reactions := rs;
                                isHandled := true |}]> ps) w))
  | None => (d, w)
  end.

(** Calling a callback; the arrow function returns [undefined]. *)
Definition call (cb : Callback) (argument : jsval) (w : World) : jsval * World :=
  match cb with
  | NavigateAway this => (VUndefined, dispatch (appNavigate VUndefined) w)
  end.

(** Running a reaction job of [catch]: a rejection goes to the callback, whose
    result fulfils the derived promise; a fulfilment passes through. *)
Definition run_job (j : Job) (w : World) : World :=
  match j with
  | ReactionJob r (Rejected reason) =>
      let '(result, w) := call (onRejected r) reason w in
      settle (derived r) (Fulfilled result) w
  | ReactionJob r (Fulfilled value) => settle (derived r) (Fulfilled value) w
  | ReactionJob r Pending => w
  end.

(** Draining the job queue, oldest job first, at most [fuel] jobs. *)
Fixpoint run_microtasks (fuel : nat) (w : World) : World :=
  match fuel with
  | O => w
  | S fuel =>
      match microtasks w with
      | [] => w
      | j :: q => run_microtasks fuel (run_job j (with_microtasks (λ _, q) w))
      end
  end.

(** The rejected promises nothing has handled: what the runtime reports. *)
Definition is_unhandled_rejection (p : Promise) : bool :=
  match pstate p with
  | Rejected _ => negb (isHandled p)
  | _ => false
  end.

Definition unhandled_rejections (w : World) : list Promise :=
  List.filter is_unhandled_rejection (promises w).

(** Modelled from the spec: the asynchronous enter operation of the
    picture-in-picture capability, the native module
    [NativeModules.PictureInPicture]: the call returns a pending promise,
    which the platform settles later, if ever. *)
Definition PictureInPicture_enterPictureInPicture (w : World) : nat * World :=
  let '(p, w) := new_promise Pending w in
  (p, with_pip_requests (λ rs, rs ++ [p]) w).

(** How the request ends. *)
Inductive PipOutcome :=
| PipSucceeds (value : jsval)
| PipFails (reason : jsval)
| PipNeverSettles.

(** The platform settles the promise of a request. *)
Definition platform_settles (request : nat) (o : PipOutcome) (w : World) : World :=
  match o with
  | PipSucceeds value => settle request (Fulfilled value) w
  | PipFails reason => settle request (Rejected reason) w
  | PipNeverSettles => w
  end.

(** ** What both files define alike: lifecycle and event handlers *)

(** [componentDidMount()] *)
Definition componentDidMount (this : Conference) (w : World) : World :=
  BackButtonRegistry_addListener (bound_onHardwareBackPress this) w.

(** [componentWillUnmount()] *)
Definition componentWillUnmount (this : Conference) (w : World) : World :=
  BackButtonRegistry_removeListener (bound_onHardwareBackPress this) w.

(** [_setToolboxVisible(visible)] *)
Definition _setToolboxVisible (this : Conference) (visible : jsval) (w : World) : World :=
  dispatch (setToolboxVisible visible) w.

(** [_onClick()] *)
Definition _onClick (this : Conference) (w : World) : World :=
  _setToolboxVisible this (! VBool (_toolboxVisible (props this)))%js w.

(** [_onHardwareBackPress()] *)
Definition _onHardwareBackPress (this : Conference) (w : World) : bool * World :=
  let '(p, w) :=
    if truthy (_pictureInPictureEnabled (props this))
    then PictureInPicture_enterPictureInPicture w
    else Promise_reject (VError "PiP not enabled") w in
  let '(_, w) := Promise_catch p (NavigateAway this) w in
  (true, w).

(** A back press followed to its end: the handler runs, the job queue is
    drained, the platform settles the request the press made (if it made
    one) and the job queue is drained again. *)
Definition back_press (fuel : nat) (this : Conference) (o : PipOutcome) (w : World)
  : bool * World :=
  let '(handled, w1) := _onHardwareBackPress this w in
  let w2 := run_microtasks fuel w1 in
  let w3 :=
    if truthy (_pictureInPictureEnabled (props this))
    then match last (pip_requests w2) with
         | Some request => platform_settles request o w2
         | None => w2
         end
    else w2 in
  (handled, run_microtasks fuel w3).

(** ** Sample inputs *)

Definition sample_imports : Imports := {|
  abstractMapStateToProps := λ _, {| abstract_shouldDisplayTileView := false |};
  isCalendarEnabled := λ _, false;
  isFilmstripVisible := λ _, true;
  isToolboxVisible := λ _, true;
  getFeatureFlag := λ _ _, VBool true;
  getConferenceName := λ s, participantId (features_large_video s);
  isNarrowAspectRatio := λ _, true;
  PIP_ENABLED := "pip.enabled";
  ASPECT_RATIO_NARROW := 0;
  styles_conference := VObj 10;
  styles_toolboxAndFilmstripContainer := VObj 11
|}.

(** The same collaborators with another feature flag store. *)
Definition with_getFeatureFlag (flags : State → string → jsval) (I : Imports) : Imports := {|
  abstractMapStateToProps := @abstractMapStateToProps I;
  isCalendarEnabled := @isCalendarEnabled I;
  isFilmstripVisible := @isFilmstripVisible I;
  isToolboxVisible := @isToolboxVisible I;
  getFeatureFlag := flags;
  getConferenceName := @getConferenceName I;
  isNarrowAspectRatio := @isNarrowAspectRatio I;
  PIP_ENABLED := @PIP_ENABLED I;
  ASPECT_RATIO_NARROW := @ASPECT_RATIO_NARROW I;
  styles_conference := @styles_conference I;
  styles_toolboxAndFilmstripContainer := @styles_toolboxAndFilmstripContainer I
|}.

(** A store state: transport connected, waiting in the lobby of a
    members-only room whose name is in [name]. *)
Definition lobby_state (name : jsval) : State := {|
  features_base_connection := {| connecting := VUndefined; connection := VObj 1 |};
  features_base_conference :=
    {| conference := VUndefined; joining := VUndefined;
       membersOnly := VObj 2; leaving := VUndefined |};
  features_base_responsive_ui := {| aspectRatio := 0; reducedUI := false |};
  features_large_video := {| participantId := name |}
|}.

(** A store state given by the five values the [connecting] rule reads. *)
Definition session_state (connecting_ connected joining_ conference_ leaving_ : jsval)
  : State := {|
  features_base_connection := {| connecting := connecting_; connection := connected |};
  features_base_conference :=
    {| conference := conference_; joining := joining_;
       membersOnly := VUndefined; leaving := leaving_ |};
  features_base_responsive_ui := {| aspectRatio := 0; reducedUI := false |};
  features_large_video := {| participantId := VUndefined |}
|}.

Definition sample_props (tile connecting_ toolbox reduced : bool) (pip : jsval) : Props := {|
  _shouldDisplayTileView := tile;
  _aspectRatio := 0;
  _calendarEnabled := false;
  _connecting := connecting_;
  _filmstripVisible := true;
  _largeVideoParticipantId := VStr "alice";
  _pictureInPictureEnabled := pip;
  _toolboxEnabled := toolbox;
  _reducedUI := reduced;
  _toolboxVisible := true
|}.

Definition sample_instance (p : Props) : Conference := {|
  props := p;
  bound_onClick := 100;
  bound_onHardwareBackPress := 101;
  bound_setToolboxVisible := 102
|}.

(** Tile view with the toolbox feature on, and with it off. *)
Definition tiles_with_toolbox : Conference :=
  sample_instance (sample_props true false true false VNull).

Definition tiles_without_toolbox : Conference :=
  sample_instance (sample_props true false false false VNull).

(** A global object that binds [state]. *)
Definition global_with_state : gmap string State :=
  {[ "state" := lobby_state (VStr "room1") ]}.

(** A world at rest, with the back button listener of another component. *)
Definition idle_world : World := {|
  dispatched := [];
  registry_calls := [CallAddListener 7];
  listeners := [7];
  pip_requests := [];
  promises := [];
  microtasks := []
|}.

(** The promise of the press and the promise of its [catch], once the press
    has been followed to its end. *)
Definition settled_pair (this : Conference) (next : nat) (s : PromiseState)
  : list Promise :=
  match s with
  | Rejected reason =>
      [{| pstate := Rejected reason; reactions := []; isHandled := true |};
       {| pstate := Fulfilled VUndefined; reactions := []; isHandled := false |}]
  | Fulfilled value =>
      [{| pstate := Fulfilled value; reactions := []; isHandled := true |};
       {| pstate := Fulfilled value; reactions := []; isHandled := false |}]
  | Pending =>
      [{| pstate := Pending;
          reactions := [{| onRejected := NavigateAway this; derived := S next |}];
          isHandled := true |};
       {| pstate := Pending; reactions := []; isHandled := false |}]
  end.

Definition outcome_state (o : PipOutcome) : PromiseState :=
  match o with
  | PipSucceeds value => Fulfilled value
  | PipFails reason => Rejected reason
  | PipNeverSettles => Pending
  end.

(** ** Sequences of back presses *)

(** The entry request was rejected. *)
Definition is_failure (o : PipOutcome) : bool :=
  match o with
  | PipFails _ => true
  | _ => false
  end.

(** Back presses one after the other, each followed to its end before the
    next, with the outcome of the request each of them may make. *)
Fixpoint back_presses (fuel : nat) (this : Conference) (outcomes : list PipOutcome)
    (w : World) : World :=
  match outcomes with
  | [] => w
  | o :: outcomes => back_presses fuel this outcomes (back_press fuel this o w).2
  end.

(** A flag value that is a boolean, or no value at all. *)
Definition boolean_or_nullish (v : jsval) : bool :=
  match v with
  | VBool _ | VUndefined | VNull => true
  | _ => false
  end.

(** The component [connect] builds from a store state, in Conference.js. *)
Definition connected_instance (I : Imports) (state : State) : Conference :=
  sample_instance (@ConferenceJs._mapStateToProps I state).

(** ** Back presses and settlements in any order *)

(** What happens around a mounted component: the back button is pressed, or
    a promise is settled from outside (for a request, by the platform),
    possibly more than once, possibly never. *)
Inductive Event :=
| BackPress
| Settles (promise : nat) (o : PipOutcome).

(** An event and the jobs it queues. *)
Definition handle_event (fuel : nat) (this : Conference) (e : Event) (w : World)
  : World :=
  match e with
  | BackPress => run_microtasks fuel (_onHardwareBackPress this w).2
  | Settles promise o => run_microtasks fuel (platform_settles promise o w)
  end.

Fixpoint run_events (fuel : nat) (this : Conference) (events : list Event)
    (w : World) : World :=
  match events with
  | [] => w
  | e :: events => run_events fuel this events (handle_event fuel this e w)
  end.

Definition is_back_press (e : Event) : bool :=
  match e with
  | BackPress => true
  | Settles _ _ => false
  end.

(** The number of back presses among the events. *)
Definition presses (events : list Event) : nat :=
  length (List.filter is_back_press events).

(** The reactions still waiting on the promises. *)
Definition waiting (ps : list Promise) : nat :=
  length (flat_map reactions ps).

(** The shape the promises of this component keep: a promise has no reaction
    waiting, or the one reaction of a back press, whose derived promise comes
    right after it and has no reaction waiting. *)
Definition paired (ps : list Promise) : Prop :=
  ∀ p c, ps !! p = Some c →
    reactions c = []
    ∨ ∃ cb d, reactions c = [{| onRejected := cb; derived := S p |}]
              ∧ ps !! S p = Some d ∧ reactions d = [].

(** A store state with the reduced UI on, the transport still connecting. *)
Definition reduced_connecting_state : State := {|
  features_base_connection := {| connecting := VObj 1; connection := VUndefined |};
  features_base_conference :=
    {| conference := VUndefined; joining := VUndefined;
       membersOnly := VUndefined; leaving := VUndefined |};
  features_base_responsive_ui := {| aspectRatio := 0; reducedUI := true |};
  features_large_video := {| participantId := VUndefined |}
|}.

(** * Properties *)

(** ** Truthiness of the operators *)

Lemma truthy_js_or (a b : jsval) : truthy (a || b)%js = truthy a || truthy b.
Proof. unfold js_or. destruct (truthy a) eqn:Ha; [by rewrite Ha | done]. Qed.

Lemma truthy_js_and (a b : jsval) : truthy (a && b)%js = truthy a && truthy b.
Proof. unfold js_and. destruct (truthy a) eqn:Ha; [done | by rewrite Ha]. Qed.

Lemma truthy_js_not (a : jsval) : truthy (! a)%js = negb (truthy a).
Proof. done. Qed.

Lemma strict_equals_string_spec (v : jsval) (literal : string) :
  strict_equals_string v literal = true ↔ v = VStr literal.
Proof.
  split.
  - destruct v; simpl; try discriminate.
    intros Heq. apply String.eqb_eq in Heq. by subst.
  - intros ->. simpl. apply String.eqb_refl.
Qed.

Create Rewrite HintDb js_truthy.
#[export] Hint Rewrite truthy_js_or truthy_js_and truthy_js_not : js_truthy.

(** ** State projection *)

(** C1. For every store state the derived [_connecting] prop is: the
    transport is connecting, or the transport is connected and (the room join
    is in progress or (there is no conference and no leave is in progress));
    in Conference.js, which reads the members-only flag, the connected
    disjunct also requires that flag to be unset, so that with the flag
    set the indicator only follows the connecting transport. *)
Theorem connecting_flag_formula `{Imports} (state : State) :
  let c := features_base_connection state in
  let f := features_base_conference state in
  Part000.Mapped._connecting (Part000._mapStateToProps state)
    = truthy (connecting c)
      || (truthy (connection c)
          && (truthy (joining f)
              || (negb (truthy (conference f)) && negb (truthy (leaving f)))))
  ∧ _connecting (ConferenceJs._mapStateToProps state)
    = truthy (connecting c)
      || (truthy (connection c)
          && (negb (truthy (membersOnly f))
              && (truthy (joining f)
                  || (negb (truthy (conference f)) && negb (truthy (leaving f))))))
  ∧ (truthy (membersOnly f) = true →
     _connecting (ConferenceJs._mapStateToProps state) = truthy (connecting c)).
Proof.
  destruct state as [[cing con] [conf join mo leave] [ar rui] lv].
  cbn -[truthy js_or js_and js_not]. unfold Boolean.
  autorewrite with js_truthy.
  split_and!; [reflexivity | reflexivity |].
  intros ->. cbn. by rewrite andb_false_r, orb_false_r.
Qed.

Lemma connecting_flag_formula_witness :
  _connecting (@ConferenceJs._mapStateToProps sample_imports (lobby_state VNull)) = false.
Proof.
  destruct (@connecting_flag_formula sample_imports (lobby_state VNull))
    as (_ & _ & Hlobby).
  rewrite Hlobby; reflexivity.
Defined.

(** Connected and joining, no conference yet: still connecting, in both files. *)
Example connecting_while_joining :
  let state := session_state (VBool false) (VBool true) (VBool true) VNull (VBool false) in
  _connecting (@ConferenceJs._mapStateToProps sample_imports state) = true
  ∧ Part000.Mapped._connecting (@Part000._mapStateToProps sample_imports state) = true.
Proof. split; reflexivity. Qed.

(** Connected, with the conference joined: no longer connecting. *)
Example connected_in_conference :
  let state :=
    session_state (VBool false) (VBool true) (VBool false) (VStr "room1") (VBool false) in
  _connecting (@ConferenceJs._mapStateToProps sample_imports state) = false
  ∧ Part000.Mapped._connecting (@Part000._mapStateToProps sample_imports state) = false.
Proof. split; reflexivity. Qed.

Lemma toolboxEnabled_unfold `{Imports} (state : State) :
  _toolboxEnabled (ConferenceJs._mapStateToProps state)
  = negb (strict_equals_string (getConferenceName state) "toolbox_disabled").
Proof.
  destruct state as [[? ?] [? ? ? ?] [? ?] ?]. cbn -[strict_equals_string].
  by destruct (strict_equals_string _ _).
Qed.

(** C10. In Conference.js the [_toolboxEnabled] prop depends on the
    conference name alone: it is false exactly when the name is the string
    'toolbox_disabled' and true otherwise, whatever the feature flags hold. *)
Theorem toolbox_enabled_from_conference_name `{I : Imports} (state : State) :
  (_toolboxEnabled (ConferenceJs._mapStateToProps state) = false
     ↔ getConferenceName state = VStr "toolbox_disabled")
  ∧ (_toolboxEnabled (ConferenceJs._mapStateToProps state) = true
     ↔ getConferenceName state ≠ VStr "toolbox_disabled")
  ∧ ∀ flags : State → string → jsval,
      _toolboxEnabled (@ConferenceJs._mapStateToProps (with_getFeatureFlag flags I) state)
      = _toolboxEnabled (ConferenceJs._mapStateToProps state).
Proof.
  assert (Hflags : ∀ flags : State → string → jsval,
             _toolboxEnabled
               (@ConferenceJs._mapStateToProps (with_getFeatureFlag flags I) state)
             = _toolboxEnabled (ConferenceJs._mapStateToProps state))
    by (intros flags; by rewrite !toolboxEnabled_unfold).
  rewrite toolboxEnabled_unfold in *.
  pose proof (strict_equals_string_spec (getConferenceName state) "toolbox_disabled")
    as Hspec.
  destruct (strict_equals_string _ _); simpl in *.
  - split_and!; [tauto | | done].
    split; [done | intros Hne; destruct Hne; tauto].
  - assert (getConferenceName state ≠ VStr "toolbox_disabled")
      by (intros Hname; apply Hspec in Hname; discriminate).
    split_and!; [split; [done | tauto] | tauto | done].
Qed.

Lemma toolbox_enabled_from_conference_name_witness :
  _toolboxEnabled
    (@ConferenceJs._mapStateToProps sample_imports (lobby_state (VStr "toolbox_disabled")))
  = false
  ∧ _toolboxEnabled
      (@ConferenceJs._mapStateToProps sample_imports (lobby_state (VStr "room1")))
    = true.
Proof.
  split.
  - destruct (@toolbox_enabled_from_conference_name sample_imports
                (lobby_state (VStr "toolbox_disabled"))) as ([_ Hdisabled] & _ & _).
    apply Hdisabled. reflexivity.
  - destruct (@toolbox_enabled_from_conference_name sample_imports
                (lobby_state (VStr "room1"))) as (_ & [_ Henabled] & _).
    apply Henabled. discriminate.
Defined.

(** ** Tapping the video surface *)

(** C8. Whatever the toolbox visibility [v] in the props, a tap on the video
    surface passes exactly one action to the store, the set-toolbox-visibility
    action carrying [!v], and does nothing else. *)
Theorem tap_dispatches_negated_visibility (this : Conference) (w : World) :
  let v := _toolboxVisible (props this) in
  dispatched (_onClick this w) = dispatched w ++ [setToolboxVisible (VBool (negb v))]
  ∧ registry_calls (_onClick this w) = registry_calls w
  ∧ listeners (_onClick this w) = listeners w
  ∧ pip_requests (_onClick this w) = pip_requests w
  ∧ promises (_onClick this w) = promises w
  ∧ microtasks (_onClick this w) = microtasks w.
Proof. intros v. split_and!; reflexivity. Qed.

(** ** The back button listener *)

Lemma filter_ne_absent (h : nat) (ls : list nat) :
  h ∉ ls → filter (λ l, l ≠ h) ls = ls.
Proof.
  induction ls as [|l ls IH]; [done |].
  intros Hnot. apply not_elem_of_cons in Hnot as [Hne Hrest].
  rewrite filter_cons_True by congruence.
  f_equal. by apply IH.
Qed.

Lemma filter_ne_removes (h : nat) (ls : list nat) :
  h ∉ filter (λ l, l ≠ h) ls.
Proof. intros Hin. apply list_elem_of_filter in Hin as [Hne _]. by apply Hne. Qed.

Lemma unmount_after_mount (this : Conference) (w : World) :
  listeners (componentWillUnmount this (componentDidMount this w))
  = filter (λ l, l ≠ bound_onHardwareBackPress this) (listeners w).
Proof.
  change (listeners (componentWillUnmount this (componentDidMount this w)))
    with (filter (λ l, l ≠ bound_onHardwareBackPress this)
            (bound_onHardwareBackPress this :: listeners w)).
  apply filter_cons_False. intros Hne. by apply Hne.
Qed.

(** C7. Mounting makes exactly one registry call, which registers the
    instance's bound back-press handler once more than it was; unmounting,
    from whatever world, makes exactly one call, which deregisters that same
    handler and leaves no registration of it. After mounting and unmounting
    the registry holds the listeners it held before, none of them from a
    freshly created instance. *)
Theorem back_button_listener_lifecycle (this : Conference) (w : World) :
  let h := bound_onHardwareBackPress this in
  registry_calls (componentDidMount this w) = registry_calls w ++ [CallAddListener h]
  ∧ listeners (componentDidMount this w) = h :: listeners w
  ∧ count_occ Nat.eq_dec (listeners (componentDidMount this w)) h
    = S (count_occ Nat.eq_dec (listeners w) h)
  ∧ (∀ w' : World,
       registry_calls (componentWillUnmount this w')
       = registry_calls w' ++ [CallRemoveListener h]
       ∧ h ∉ listeners (componentWillUnmount this w'))
  ∧ listeners (componentWillUnmount this (componentDidMount this w))
    = filter (λ l, l ≠ h) (listeners w)
  ∧ (h ∉ listeners w →
     count_occ Nat.eq_dec (listeners (componentDidMount this w)) h = 1
     ∧ listeners (componentWillUnmount this (componentDidMount this w)) = listeners w).
Proof.
  intros h. split_and!.
  - reflexivity.
  - reflexivity.
  - cbn. by destruct (Nat.eq_dec _ _).
  - intros w'. split; [reflexivity | apply filter_ne_removes].
  - apply unmount_after_mount.
  - intros Hfresh. split.
    + cbn. destruct (Nat.eq_dec _ _); [| done].
      f_equal. apply count_occ_not_In. by rewrite <- list_elem_of_In.
    + rewrite unmount_after_mount. by apply filter_ne_absent.
Qed.

Lemma back_button_listener_lifecycle_witness :
  count_occ Nat.eq_dec
    (listeners (componentDidMount (sample_instance (sample_props false false true false VNull))
                  idle_world)) 101 = 1
  ∧ listeners
      (componentWillUnmount (sample_instance (sample_props false false true false VNull))
         (componentDidMount (sample_instance (sample_props false false true false VNull))
            idle_world))
    = [7].
Proof.
  apply (back_button_listener_lifecycle
           (sample_instance (sample_props false false true false VNull)) idle_world).
  cbn. intros Hin. apply list_elem_of_In in Hin. cbn in Hin. lia.
Defined.

(** ** Pressing the hardware back button *)

(** C5. The back-press handler returns [true] on every call: whatever the
    picture-in-picture flag holds and however the entry request ends. *)
Theorem back_press_always_handled (this : Conference) (w : World) :
  (_onHardwareBackPress this w).1 = true
  ∧ ∀ (fuel : nat) (o : PipOutcome), (back_press fuel this o w).1 = true.
Proof.
  assert (Hpress : (_onHardwareBackPress this w).1 = true).
  { unfold _onHardwareBackPress.
    destruct (truthy _); [destruct (PictureInPicture_enterPictureInPicture w) as [p w1]
                         | destruct (Promise_reject _ w) as [p w1]];
      by destruct (Promise_catch p _ w1). }
  split; [done |].
  intros fuel o. unfold back_press.
  by destruct (_onHardwareBackPress this w) as [handled w1].
Qed.

(** ** View composition *)

Lemma existsb_flat_map {A B} (p : B → bool) (f : A → list B) (l : list A) :
  existsb p (flat_map f l) = existsb (λ x, existsb p (f x)) l.
Proof.
  induction l as [|x l IH]; [done |].
  simpl. by rewrite existsb_app, IH.
Qed.

Lemma renders_fragment (c : Component) ps (children : list jsval) :
  renders c (VElem Fragment ps children) = existsb (renders c) children.
Proof. unfold renders at 1. simpl. apply existsb_flat_map. Qed.

Lemma renders_element (c type : Component) ps (children : list jsval) :
  type ≠ Fragment →
  renders c (VElem type ps children)
  = bool_decide (type = c) || existsb (renders c) children.
Proof.
  intros Htype. unfold renders at 1.
  destruct type; try done; simpl; by rewrite orb_false_r, existsb_flat_map.
Qed.

Lemma renders_falsy (c : Component) (v : jsval) :
  truthy v = false → renders c v = false.
Proof. by destruct v. Qed.

Lemma renders_js_and (c : Component) (a b : jsval) :
  renders c (a && b)%js = truthy a && renders c b.
Proof.
  unfold js_and. destruct (truthy a) eqn:Ha; [done |]. by apply renders_falsy.
Qed.

(** Splitting an instance into its props, to compute with them. *)
Ltac open_instance this :=
  let tile := fresh "tile" in
  let conn := fresh "conn" in
  let te := fresh "te" in
  let red := fresh "red" in
  destruct this as [[tile ? ? conn ? ? ? te red ?] ? ? ?];
  simpl in *; subst.

(** C3. With the reduced UI flag set, what is mounted is exactly the large
    video and, when [_connecting] holds, the tinted view with the loading
    indicator after it: no toolbox, no filmstrip, no display name label.
    This holds in both files. *)
Theorem reduced_ui_content `{Imports} (globalThis : gmap string State)
    (this : Conference) :
  _reducedUI (props this) = true →
  let video := VElem LargeVideo [("onClick", VObj (bound_onClick this))] [] in
  let overlay := VElem TintedView [] [VElem LoadingIndicator [] []] in
  let expected := if _connecting (props this) then [video; overlay] else [video] in
  (∃ tree, ConferenceJs._renderContent this = Ok tree
           ∧ mount tree = expected
           ∧ renders Toolbox tree = false
           ∧ renders Filmstrip tree = false
           ∧ renders DisplayNameLabel tree = false)
  ∧ (∃ tree, Part000._renderContent globalThis this = Ok tree
             ∧ mount tree = expected
             ∧ renders Toolbox tree = false
             ∧ renders Filmstrip tree = false
             ∧ renders DisplayNameLabel tree = false).
Proof.
  intros Hreduced. open_instance this.
  split; (eexists; split; [reflexivity |]); by destruct conn.
Qed.

Lemma reduced_ui_content_witness :
  ∃ tree,
    @Part000._renderContent sample_imports ∅
      (sample_instance (sample_props false true true true VNull)) = Ok tree
    ∧ mount tree = [VElem LargeVideo [("onClick", VObj 100)] [];
                    VElem TintedView [] [VElem LoadingIndicator [] []]]
    ∧ renders Toolbox tree = false
    ∧ renders Filmstrip tree = false
    ∧ renders DisplayNameLabel tree = false.
Proof.
  apply (@reduced_ui_content sample_imports ∅
           (sample_instance (sample_props false true true true VNull))).
  reflexivity.
Defined.

(** In tile view Conference.js mounts no display name label: the child
    expression [_shouldDisplayTileView || ...] then is [true], which renders
    nothing. *)
Lemma tile_view_mounts_no_label :
  _shouldDisplayTileView (props tiles_with_toolbox) = true
  ∧ _reducedUI (props tiles_with_toolbox) = false
  ∧ @ConferenceJs._renderContent sample_imports tiles_with_toolbox
    = Ok (VElem Fragment [] [
            VElem TileView [("onClick", VObj 100)] [];
            VBool false;
            VElem SafeAreaView [("pointerEvents", VStr "box-none");
                                ("style", VObj 11)] [
              VBool true;
              VElem Toolbox [] [];
              VUndefined
            ]
          ])
  ∧ ¬ (∃ tree, @ConferenceJs._renderContent sample_imports tiles_with_toolbox = Ok tree
               ∧ renders Filmstrip tree = false
               ∧ renders DisplayNameLabel tree = true).
Proof.
  split_and!; [reflexivity | reflexivity | reflexivity |].
  intros (tree & Htree & _ & Hlabel).
  injection Htree as <-. discriminate Hlabel.
Qed.

(** C2, amended. With tile view active and the reduced UI off, the mounted
    tree holds no filmstrip and no display name label. In Conference.js the
    label is mounted exactly when tile view is off and the toolbox feature is
    enabled. In part_000 the same holds for tile view wherever the identifier
    [state] resolves. *)
Theorem tile_view_content `{Imports} (globalThis : gmap string State)
    (this : Conference) :
  _reducedUI (props this) = false →
  (∃ tree, ConferenceJs._renderContent this = Ok tree
           ∧ renders DisplayNameLabel tree
             = negb (_shouldDisplayTileView (props this)) && _toolboxEnabled (props this)
           ∧ (_shouldDisplayTileView (props this) = true →
              renders Filmstrip tree = false ∧ renders DisplayNameLabel tree = false))
  ∧ (_shouldDisplayTileView (props this) = true →
     ∀ state, globalThis !! "state" = Some state →
     ∃ tree, Part000._renderContent globalThis this = Ok tree
             ∧ renders Filmstrip tree = false
             ∧ renders DisplayNameLabel tree = false).
Proof.
  intros Hfull. split.
  - open_instance this.
    eexists; split; [reflexivity |].
    by destruct tile, te, conn.
  - intros Htile state Hstate. open_instance this.
    unfold Part000._renderContent, Part000.free_identifier. simpl.
    rewrite Hstate. simpl.
    eexists; split; [reflexivity |].
    rewrite !renders_fragment. simpl.
    rewrite !renders_element by done. simpl.
    rewrite !renders_js_and. simpl.
    rewrite !andb_false_r, !orb_false_r.
    by destruct (truthy (getFeatureFlag state "toolbox.enabled")).
Qed.

Lemma tile_view_content_witness :
  (∃ tree, @ConferenceJs._renderContent sample_imports tiles_with_toolbox = Ok tree
           ∧ renders Filmstrip tree = false ∧ renders DisplayNameLabel tree = false)
  ∧ (∃ tree, @Part000._renderContent sample_imports global_with_state tiles_with_toolbox
             = Ok tree
             ∧ renders Filmstrip tree = false ∧ renders DisplayNameLabel tree = false).
Proof.
  destruct (@tile_view_content sample_imports global_with_state tiles_with_toolbox)
    as [(tree & Htree & _ & Htiles) Hpart]; [reflexivity |].
  split.
  - exists tree. split; [exact Htree |]. apply Htiles. reflexivity.
  - apply (Hpart eq_refl (lobby_state (VStr "room1"))). reflexivity.
Defined.

(** With the toolbox feature off, Conference.js shows the large video on a
    white background even when tile view is active: the tiled grid is not
    mounted. *)
Lemma tile_view_without_toolbox_shows_large_video :
  _shouldDisplayTileView (props tiles_without_toolbox) = true
  ∧ _reducedUI (props tiles_without_toolbox) = false
  ∧ ∃ tree, @ConferenceJs._renderContent sample_imports tiles_without_toolbox = Ok tree
            ∧ head (mount tree)
              = Some (VElem LargeVideo [("whiteback", VBool true);
                                        ("onClick", VObj 100)] [])
            ∧ renders TileView tree = false.
Proof. split_and!; [reflexivity | reflexivity |]. by eexists. Qed.

(** C9, amended. Outside the reduced UI, Conference.js mounts the tinted
    loading overlay exactly when [_connecting] holds and the toolbox feature
    is enabled. The lowermost layer is the tiled grid exactly when tile view
    is active and the toolbox feature is enabled; otherwise it is the large
    video, whose [whiteback] prop is true exactly when the toolbox feature is
    disabled. *)
Theorem content_layers `{Imports} (this : Conference) :
  _reducedUI (props this) = false →
  let tile := _shouldDisplayTileView (props this) in
  let enabled := _toolboxEnabled (props this) in
  ∃ tree surface above,
    ConferenceJs._renderContent this = Ok tree
    ∧ mount tree = surface :: above
    ∧ renders TintedView tree = _connecting (props this) && enabled
    ∧ renders LoadingIndicator tree = _connecting (props this) && enabled
    ∧ type_of surface = Some (if enabled && tile then TileView else LargeVideo)
    ∧ prop_of "whiteback" surface
      = (if enabled && tile then VUndefined else VBool (negb enabled))
    ∧ prop_of "onClick" surface = VObj (bound_onClick this)
    ∧ renders TileView tree = enabled && tile
    ∧ renders LargeVideo tree = negb (enabled && tile).
Proof.
  intros Hfull. open_instance this.
  destruct tile, te, conn; do 3 eexists; (split; [reflexivity |]);
    split_and!; reflexivity.
Qed.

Lemma content_layers_witness :
  ∃ tree surface above,
    @ConferenceJs._renderContent sample_imports tiles_without_toolbox = Ok tree
    ∧ mount tree = surface :: above
    ∧ renders TintedView tree = false
    ∧ renders LoadingIndicator tree = false
    ∧ type_of surface = Some LargeVideo
    ∧ prop_of "whiteback" surface = VBool true
    ∧ prop_of "onClick" surface = VObj 100
    ∧ renders TileView tree = false
    ∧ renders LargeVideo tree = true.
Proof.
  apply (@content_layers sample_imports tiles_without_toolbox). reflexivity.
Defined.

(** ** Failure of rendering in part_000 *)

Lemma state_is_free_in_renderContent :
  "state" ∉ (Part000.renderContent_locals ++ Part000.module_bindings).
Proof. intros Hin. apply list_elem_of_In in Hin. cbn in Hin. intuition discriminate. Qed.

(** C4. In part_000, outside the reduced UI, [_renderContent] raises a
    ReferenceError as soon as it evaluates the identifier [state], which no
    scope of the file binds and the global object does not hold; with the
    reduced UI it returns a tree, and Conference.js returns one for every
    instance. *)
Theorem part000_content_raises_reference_error `{Imports}
    (globalThis : gmap string State) (this : Conference) :
  globalThis !! "state" = None →
  ("state" ∉ Part000.renderContent_locals ++ Part000.module_bindings)
  ∧ (_reducedUI (props this) = false →
     Part000._renderContent globalThis this = Throw (ReferenceError "state"))
  ∧ (_reducedUI (props this) = true →
     Part000._renderContent globalThis this = Ok (_renderContentForReducedUi this))
  ∧ ∃ tree, ConferenceJs._renderContent this = Ok tree.
Proof.
  intros Hunbound. split_and!.
  - apply state_is_free_in_renderContent.
  - intros Hfull. unfold Part000._renderContent, Part000.free_identifier.
    by rewrite Hfull, Hunbound.
  - intros Hreduced. unfold Part000._renderContent. by rewrite Hreduced.
  - unfold ConferenceJs._renderContent. destruct (_reducedUI (props this)); by eexists.
Qed.

Lemma part000_content_raises_reference_error_witness :
  @Part000._renderContent sample_imports ∅ tiles_with_toolbox
  = Throw (ReferenceError "state").
Proof.
  destruct (@part000_content_raises_reference_error sample_imports ∅ tiles_with_toolbox)
    as (_ & Hraises & _ & _); [reflexivity |].
  apply Hraises. reflexivity.
Defined.

(** ** Navigation on a back press *)

Section TwoNewPromises.
Context (ps : list Promise) (a b : Promise).

Lemma lookup_first_new : (ps ++ [a; b]) !! length ps = Some a.
Proof. by apply list_lookup_middle. Qed.

Lemma lookup_second_new : (ps ++ [a; b]) !! S (length ps) = Some b.
Proof.
  replace (S (length ps)) with (length ps + 1) by lia.
  by rewrite lookup_app_r, Nat.add_comm, Nat.add_sub by lia.
Qed.

Lemma insert_first_new (a' : Promise) :
  <[length ps := a']> (ps ++ [a; b]) = ps ++ [a'; b].
Proof.
  replace (length ps) with (length ps + 0) at 1 by lia.
  by rewrite insert_app_r.
Qed.

Lemma insert_second_new (b' : Promise) :
  <[S (length ps) := b']> (ps ++ [a; b]) = ps ++ [a; b'].
Proof.
  replace (S (length ps)) with (length ps + 1) by lia.
  by rewrite insert_app_r.
Qed.

End TwoNewPromises.

Lemma run_microtasks_idle (fuel : nat) (w : World) :
  microtasks w = [] → run_microtasks fuel w = w.
Proof. intros Hidle. destruct fuel; [done |]. simpl. by rewrite Hidle. Qed.

(** The handler with picture-in-picture off: a rejected promise, handled by
    the reaction that is queued at once, and the promise of [catch]. *)
Lemma press_without_pip (this : Conference) (w : World) :
  truthy (_pictureInPictureEnabled (props this)) = false →
  _onHardwareBackPress this w
  = (true,
     {| dispatched := dispatched w;
        registry_calls := registry_calls w;
        listeners := listeners w;
        pip_requests := pip_requests w;
        promises :=
          promises w
          ++ [{| pstate := Rejected (VError "PiP not enabled"); reactions := [];
                 isHandled := true |};
              {| pstate := Pending; reactions := []; isHandled := false |}];
        microtasks :=
          microtasks w
          ++ [ReactionJob {| onRejected := NavigateAway this;
                             derived := S (length (promises w)) |}
                (Rejected (VError "PiP not enabled"))] |}).
Proof.
  intros Hoff. unfold _onHardwareBackPress. rewrite Hoff.
  destruct w as [ds rc ls rq ps q].
  unfold Promise_reject, Promise_catch, new_promise, with_promises, with_microtasks.
  cbn [promises dispatched registry_calls listeners pip_requests microtasks].
  rewrite <- !app_assoc. cbn [app].
  rewrite lookup_first_new, insert_first_new.
  by rewrite length_app, Nat.add_comm.
Qed.

(** The handler with picture-in-picture on: one request, whose pending
    promise carries the reaction, and the promise of [catch]. *)
Lemma press_with_pip (this : Conference) (w : World) :
  truthy (_pictureInPictureEnabled (props this)) = true →
  _onHardwareBackPress this w
  = (true,
     {| dispatched := dispatched w;
        registry_calls := registry_calls w;
        listeners := listeners w;
        pip_requests := pip_requests w ++ [length (promises w)];
        promises :=
          promises w
          ++ [{| pstate := Pending;
                 reactions := [{| onRejected := NavigateAway this;
                                  derived := S (length (promises w)) |}];
                 isHandled := true |};
              {| pstate := Pending; reactions := []; isHandled := false |}];
        microtasks := microtasks w |}).
Proof.
  intros Hon. unfold _onHardwareBackPress. rewrite Hon.
  destruct w as [ds rc ls rq ps q].
  unfold PictureInPicture_enterPictureInPicture, Promise_catch, new_promise,
    with_promises, with_microtasks, with_pip_requests.
  cbn [promises dispatched registry_calls listeners pip_requests microtasks].
  rewrite <- !app_assoc. cbn [app].
  rewrite lookup_first_new, insert_first_new.
  by rewrite length_app, Nat.add_comm.
Qed.

(** One job of the queue is run. *)
Lemma run_microtasks_step (fuel : nat) ds rc ls rq ps (j : Job) (q : list Job) :
  run_microtasks (S fuel)
    {| dispatched := ds; registry_calls := rc; listeners := ls; pip_requests := rq;
       promises := ps; microtasks := j :: q |}
  = run_microtasks fuel
      (run_job j
         {| dispatched := ds; registry_calls := rc; listeners := ls;
            pip_requests := rq; promises := ps; microtasks := q |}).
Proof. reflexivity. Qed.

Ltac unfold_world :=
  unfold run_job, call, dispatch, settle, platform_settles,
    with_dispatched, with_promises, with_microtasks;
  cbn [dispatched registry_calls listeners pip_requests promises microtasks
       onRejected derived].

(** The reaction to a rejection navigates away and fulfils the promise of
    [catch]. *)
Lemma run_rejection_job (this : Conference) (reason : jsval) ds rc ls rq ps a q :
  run_job (ReactionJob {| onRejected := NavigateAway this; derived := S (length ps) |}
             (Rejected reason))
    {| dispatched := ds; registry_calls := rc; listeners := ls; pip_requests := rq;
       promises := ps ++ [a; {| pstate := Pending; reactions := []; isHandled := false |}];
       microtasks := q |}
  = {| dispatched := ds ++ [appNavigate VUndefined]; registry_calls := rc;
       listeners := ls; pip_requests := rq;
       promises := ps ++ [a; {| pstate := Fulfilled VUndefined; reactions := [];
                                isHandled := false |}];
       microtasks := q |}.
Proof.
  unfold_world. rewrite lookup_second_new, insert_second_new.
  cbn [map]. by rewrite app_nil_r.
Qed.

(** The reaction to a fulfilment passes the value on and dispatches nothing. *)
Lemma run_fulfilment_job (cb : Callback) (value : jsval) ds rc ls rq ps a q :
  run_job (ReactionJob {| onRejected := cb; derived := S (length ps) |}
             (Fulfilled value))
    {| dispatched := ds; registry_calls := rc; listeners := ls; pip_requests := rq;
       promises := ps ++ [a; {| pstate := Pending; reactions := []; isHandled := false |}];
       microtasks := q |}
  = {| dispatched := ds; registry_calls := rc; listeners := ls; pip_requests := rq;
       promises := ps ++ [a; {| pstate := Fulfilled value; reactions := [];
                                isHandled := false |}];
       microtasks := q |}.
Proof.
  unfold_world. rewrite lookup_second_new, insert_second_new.
  cbn [map]. by rewrite app_nil_r.
Qed.

(** The platform settles the request of the press: its reaction is queued. *)
Lemma settle_request (s : PromiseState) (r : Reaction) ds rc ls rq ps b q :
  settle (length ps) s
    {| dispatched := ds; registry_calls := rc; listeners := ls; pip_requests := rq;
       promises := ps ++ [{| pstate := Pending; reactions := [r]; isHandled := true |}; b];
       microtasks := q |}
  = {| dispatched := ds; registry_calls := rc; listeners := ls; pip_requests := rq;
       promises := ps ++ [{| pstate := s; reactions := []; isHandled := true |}; b];
       microtasks := q ++ [ReactionJob r s] |}.
Proof. unfold_world. by rewrite lookup_first_new, insert_first_new. Qed.

Lemma back_press_without_pip (fuel : nat) (this : Conference) (o : PipOutcome)
    (w : World) :
  microtasks w = [] →
  truthy (_pictureInPictureEnabled (props this)) = false →
  back_press (S fuel) this o w
  = (true,
     {| dispatched := dispatched w ++ [appNavigate VUndefined];
        registry_calls := registry_calls w;
        listeners := listeners w;
        pip_requests := pip_requests w;
        promises :=
          promises w
          ++ settled_pair this (length (promises w)) (Rejected (VError "PiP not enabled"));
        microtasks := [] |}).
Proof.
  intros Hidle Hoff. unfold back_press.
  rewrite (press_without_pip _ _ Hoff), Hidle, Hoff. cbn [app].
  rewrite run_microtasks_step, run_rejection_job.
  rewrite (run_microtasks_idle fuel) by done.
  by rewrite run_microtasks_idle by done.
Qed.

Lemma back_press_with_pip (fuel : nat) (this : Conference) (o : PipOutcome)
    (w : World) :
  microtasks w = [] →
  truthy (_pictureInPictureEnabled (props this)) = true →
  back_press (S fuel) this o w
  = (true,
     {| dispatched :=
          dispatched w
          ++ match o with PipFails _ => [appNavigate VUndefined] | _ => [] end;
        registry_calls := registry_calls w;
        listeners := listeners w;
        pip_requests := pip_requests w ++ [length (promises w)];
        promises :=
          promises w ++ settled_pair this (length (promises w)) (outcome_state o);
        microtasks := [] |}).
Proof.
  intros Hidle Hon. unfold back_press.
  rewrite (press_with_pip _ _ Hon), Hidle, Hon.
  rewrite (run_microtasks_idle _ (Build_World _ _ _ _ _ [])) by done.
  cbn [pip_requests]. rewrite last_snoc.
  destruct o as [value | reason |]; unfold platform_settles.
  - rewrite settle_request. cbn [app].
    rewrite run_microtasks_step, run_fulfilment_job.
    by rewrite run_microtasks_idle, app_nil_r by done.
  - rewrite settle_request. cbn [app].
    rewrite run_microtasks_step, run_rejection_job.
    by rewrite run_microtasks_idle by done.
  - by rewrite run_microtasks_idle, app_nil_r by done.
Qed.

Lemma settled_pair_handled (this : Conference) (next : nat) (s : PromiseState) :
  List.filter is_unhandled_rejection (settled_pair this next s) = [].
Proof. by destruct s. Qed.

(** C6. A back press followed to its end, from a world whose job queue is
    empty: when picture-in-picture is off, or the entry request fails, the
    store receives exactly one action, [appNavigate(undefined)]; when
    picture-in-picture is on and the request succeeds (or never settles) it
    receives none. The entry request is made once when picture-in-picture is
    on and never otherwise, and no rejection is left unhandled. *)
Theorem back_press_navigation (fuel : nat) (this : Conference) (o : PipOutcome)
    (w : World) :
  microtasks w = [] →
  let enabled := truthy (_pictureInPictureEnabled (props this)) in
  let failed := match o with PipFails _ => true | _ => false end in
  let w' := (back_press (S fuel) this o w).2 in
  dispatched w'
  = dispatched w ++ (if negb enabled || failed then [appNavigate VUndefined] else [])
  ∧ pip_requests w' = pip_requests w ++ (if enabled then [length (promises w)] else [])
  ∧ unhandled_rejections w' = unhandled_rejections w
  ∧ microtasks w' = []
  ∧ registry_calls w' = registry_calls w
  ∧ listeners w' = listeners w.
Proof.
  intros Hidle enabled failed w'. subst enabled failed w'.
  destruct (truthy (_pictureInPictureEnabled (props this))) eqn:Hpip.
  - rewrite (back_press_with_pip _ _ _ _ Hidle Hpip). cbn [snd negb orb].
    unfold unhandled_rejections.
    cbn [dispatched registry_calls listeners pip_requests promises microtasks].
    rewrite List.filter_app, settled_pair_handled, app_nil_r.
    split_and!; try done. by destruct o.
  - rewrite (back_press_without_pip _ _ _ _ Hidle Hpip). cbn [snd negb orb].
    unfold unhandled_rejections.
    cbn [dispatched registry_calls listeners pip_requests promises microtasks].
    rewrite List.filter_app, settled_pair_handled, !app_nil_r.
    by split_and!.
Qed.

Lemma back_press_navigation_witness :
  dispatched
    (back_press 1 (sample_instance (sample_props false false true false (VBool false)))
       PipNeverSettles idle_world).2
  = [appNavigate VUndefined]
  ∧ dispatched
      (back_press 1 (sample_instance (sample_props false false true false (VBool true)))
         (PipFails (VError "unsupported")) idle_world).2
    = [appNavigate VUndefined]
  ∧ dispatched
      (back_press 1 (sample_instance (sample_props false false true false (VBool true)))
         (PipSucceeds VUndefined) idle_world).2
    = [].
Proof.
  split_and!.
  - apply (back_press_navigation 0
             (sample_instance (sample_props false false true false (VBool false)))
             PipNeverSettles idle_world).
    reflexivity.
  - apply (back_press_navigation 0
             (sample_instance (sample_props false false true false (VBool true)))
             (PipFails (VError "unsupported")) idle_world).
    reflexivity.
  - apply (back_press_navigation 0
             (sample_instance (sample_props false false true false (VBool true)))
             (PipSucceeds VUndefined) idle_world).
    reflexivity.
Defined.

(** * Further properties *)

(** ** What Conference.js mounts outside the reduced UI *)

(** X1. With the toolbox feature off and the reduced UI off, Conference.js
    mounts the large video on its white background and an empty safe area,
    and nothing else, whatever tile view and [_connecting] are. *)
Theorem toolbox_disabled_screen `{Imports} (this : Conference) :
  _reducedUI (props this) = false →
  _toolboxEnabled (props this) = false →
  ∃ tree,
    ConferenceJs._renderContent this = Ok tree
    ∧ mount tree
      = [VElem LargeVideo [("whiteback", VBool true);
                           ("onClick", VObj (bound_onClick this))] [];
         VElem SafeAreaView [("pointerEvents", VStr "box-none");
                             ("style", styles_toolboxAndFilmstripContainer)] []].
Proof.
  intros Hfull Hoff. open_instance this.
  eexists; split; [reflexivity |]. by destruct tile, conn.
Qed.

Lemma toolbox_disabled_screen_witness :
  ∃ tree,
    @ConferenceJs._renderContent sample_imports
      (sample_instance (sample_props true true false false VNull)) = Ok tree
    ∧ mount tree
      = [VElem LargeVideo [("whiteback", VBool true); ("onClick", VObj 100)] [];
         VElem SafeAreaView [("pointerEvents", VStr "box-none");
                             ("style", VObj 11)] []].
Proof.
  apply (@toolbox_disabled_screen sample_imports
           (sample_instance (sample_props true true false false VNull)));
    reflexivity.
Defined.

(** X2. With the toolbox feature on and the reduced UI off, Conference.js
    mounts, from the lowermost layer up: the video surface (the tiled grid in
    tile view, else the large video without white background), the loading
    overlay when [_connecting] holds, and the safe area, which holds the
    display name label, the toolbox and the filmstrip in this order, the
    label and the filmstrip only outside tile view. *)
Theorem toolbox_enabled_layers `{Imports} (this : Conference) :
  _reducedUI (props this) = false →
  _toolboxEnabled (props this) = true →
  let click := ("onClick", VObj (bound_onClick this)) in
  let tile := _shouldDisplayTileView (props this) in
  ∃ tree,
    ConferenceJs._renderContent this = Ok tree
    ∧ mount tree
      = [if tile then VElem TileView [click] []
         else VElem LargeVideo [("whiteback", VBool false); click] []]
        ++ (if _connecting (props this)
            then [VElem TintedView [] [VElem LoadingIndicator [] []]]
            else [])
        ++ [VElem SafeAreaView [("pointerEvents", VStr "box-none");
                                ("style", styles_toolboxAndFilmstripContainer)]
              ((if tile then []
                else [VElem DisplayNameLabel
                        [("participantId", _largeVideoParticipantId (props this))] []])
               ++ [VElem Toolbox [] []]
               ++ (if tile then [] else [VElem Filmstrip [] []]))].
Proof.
  intros Hfull Hon. open_instance this.
  eexists; split; [reflexivity |]. by destruct tile, conn.
Qed.

Lemma toolbox_enabled_layers_witness :
  ∃ tree,
    @ConferenceJs._renderContent sample_imports
      (sample_instance (sample_props false true true false VNull)) = Ok tree
    ∧ mount tree
      = [VElem LargeVideo [("whiteback", VBool false); ("onClick", VObj 100)] [];
         VElem TintedView [] [VElem LoadingIndicator [] []];
         VElem SafeAreaView [("pointerEvents", VStr "box-none"); ("style", VObj 11)]
           [VElem DisplayNameLabel [("participantId", VStr "alice")] [];
            VElem Toolbox [] [];
            VElem Filmstrip [] []]].
Proof.
  apply (@toolbox_enabled_layers sample_imports
           (sample_instance (sample_props false true true false VNull)));
    reflexivity.
Defined.

(** ** [render()] *)

Lemma content_without_status_bar `{Imports} (this : Conference) :
  ∃ content,
    ConferenceJs._renderContent this = Ok content ∧ renders StatusBar content = false.
Proof.
  destruct this as [[tile ? ? conn ? ? ? te red ?] ? ? ?].
  destruct red, tile, te, conn; by eexists.
Qed.

(** X3. In Conference.js [render()] never fails and mounts one Container,
    styled [styles.conference], around what [_renderContent()] mounts, with
    no status bar. In part_000 [render()] raises exactly the error
    [_renderContent()] raises, and where that returns a tree it mounts the
    Container around a hidden, translucent status bar followed by the
    content. *)
Theorem render_wraps_content `{Imports} (globalThis : gmap string State)
    (this : Conference) :
  (∃ content tree,
     ConferenceJs._renderContent this = Ok content
     ∧ ConferenceJs.render this = Ok tree
     ∧ mount tree = [VElem Container [("style", styles_conference)] (mount content)]
     ∧ renders StatusBar tree = false)
  ∧ (∀ e, Part000.render globalThis this = Throw e
          ↔ Part000._renderContent globalThis this = Throw e)
  ∧ (∀ content,
       Part000._renderContent globalThis this = Ok content →
       ∃ tree,
         Part000.render globalThis this = Ok tree
         ∧ mount tree
           = [VElem Container [("style", styles_conference)]
                (VElem StatusBar [("barStyle", VStr "light-content");
                                  ("hidden", VBool true);
                                  ("translucent", VBool true)] []
                 :: mount content)]).
Proof.
  split_and!.
  - destruct (content_without_status_bar this) as (content & Hcontent & Hbar).
    exists content. eexists. split; [done |].
    unfold ConferenceJs.render. rewrite Hcontent. split; [reflexivity |].
    split.
    + simpl. by rewrite app_nil_r.
    + rewrite renders_element by done. simpl. by rewrite Hbar.
  - intros e. unfold Part000.render.
    destruct (Part000._renderContent globalThis this) as [content | e']; simpl.
    + split; discriminate.
    + done.
  - intros content Hcontent. unfold Part000.render. rewrite Hcontent.
    eexists. split; [reflexivity |]. simpl. by rewrite app_nil_r.
Qed.

Lemma render_wraps_content_witness :
  ∃ tree,
    @Part000.render sample_imports ∅
      (sample_instance (sample_props false false true true VNull)) = Ok tree
    ∧ mount tree
      = [VElem Container [("style", VObj 10)]
           [VElem StatusBar [("barStyle", VStr "light-content");
                             ("hidden", VBool true);
                             ("translucent", VBool true)] [];
            VElem LargeVideo [("onClick", VObj 100)] []]].
Proof.
  destruct (@render_wraps_content sample_imports ∅
              (sample_instance (sample_props false false true true VNull)))
    as (_ & _ & Hpart).
  apply (Hpart (_renderContentForReducedUi
                  (sample_instance (sample_props false false true true VNull)))).
  reflexivity.
Defined.

(** ** The two projections side by side *)

Lemma connecting_unfold_js `{Imports} (state : State) :
  _connecting (ConferenceJs._mapStateToProps state)
  = truthy (connecting (features_base_connection state))
    || (truthy (connection (features_base_connection state))
        && (negb (truthy (membersOnly (features_base_conference state)))
            && (truthy (joining (features_base_conference state))
                || (negb (truthy (conference (features_base_conference state)))
                    && negb (truthy (leaving (features_base_conference state))))))).
Proof.
  destruct state as [[? ?] [? ? ? ?] [? ?] ?].
  cbn -[truthy js_or js_and js_not]. unfold Boolean.
  by autorewrite with js_truthy.
Qed.

Lemma connecting_unfold_part000 `{Imports} (state : State) :
  Part000.Mapped._connecting (Part000._mapStateToProps state)
  = truthy (connecting (features_base_connection state))
    || (truthy (connection (features_base_connection state))
        && (truthy (joining (features_base_conference state))
            || (negb (truthy (conference (features_base_conference state)))
                && negb (truthy (leaving (features_base_conference state)))))).
Proof.
  destruct state as [[? ?] [? ? ? ?] [? ?] ?].
  cbn -[truthy js_or js_and js_not]. unfold Boolean.
  by autorewrite with js_truthy.
Qed.

(** X4. For every store state the two projections agree on every key they
    share except [_connecting], and the [_connecting] of Conference.js is
    that of part_000 cut down by the lobby gate: it holds exactly when the
    one of part_000 holds and the transport is connecting or the members-only
    flag is unset. *)
Theorem projections_side_by_side `{Imports} (state : State) :
  let js := ConferenceJs._mapStateToProps state in
  let part := Part000._mapStateToProps state in
  _connecting js
  = Part000.Mapped._connecting part
    && (truthy (connecting (features_base_connection state))
        || negb (truthy (membersOnly (features_base_conference state))))
  ∧ _shouldDisplayTileView js = Part000.Mapped._shouldDisplayTileView part
  ∧ _calendarEnabled js = Part000.Mapped._calendarEnabled part
  ∧ _filmstripVisible js = Part000.Mapped._filmstripVisible part
  ∧ _largeVideoParticipantId js = Part000.Mapped._largeVideoParticipantId part
  ∧ _pictureInPictureEnabled js = Part000.Mapped._pictureInPictureEnabled part
  ∧ _reducedUI js = Part000.Mapped._reducedUI part
  ∧ _toolboxVisible js = Part000.Mapped._toolboxVisible part.
Proof.
  intros js part. subst js part. split.
  - rewrite connecting_unfold_js, connecting_unfold_part000.
    destruct (truthy (connecting _)), (truthy (connection _)),
      (truthy (membersOnly _)), (truthy (joining _)),
      (truthy (conference _)), (truthy (leaving _)); reflexivity.
  - destruct state as [[? ?] [? ? ? ?] [? ?] ?]. by split_and!.
Qed.

(** ** From the store state to the loading overlay *)

Lemma overlay_from_props `{Imports} (this : Conference) :
  ∃ tree,
    ConferenceJs._renderContent this = Ok tree
    ∧ renders TintedView tree
      = _connecting (props this)
        && (_reducedUI (props this) || _toolboxEnabled (props this))
    ∧ renders LoadingIndicator tree
      = _connecting (props this)
        && (_reducedUI (props this) || _toolboxEnabled (props this)).
Proof.
  destruct this as [[tile ? ? conn ? ? ? te red ?] ? ? ?].
  destruct red, tile, te, conn; by eexists.
Qed.

Lemma reducedUI_unfold `{Imports} (state : State) :
  _reducedUI (ConferenceJs._mapStateToProps state)
  = reducedUI (features_base_responsive_ui state).
Proof. by destruct state as [[? ?] [? ? ? ?] [? ?] ?]. Qed.

(** X5. For the component Conference.js builds from a store state, the
    loading overlay is mounted exactly when the session is establishing (the
    [_connecting] rule with its lobby gate) and, unless the reduced UI is on,
    the conference is not named 'toolbox_disabled'. The reduced UI shows the
    overlay whatever the name. *)
Theorem overlay_from_store_state `{Imports} (state : State) (this : Conference) :
  props this = ConferenceJs._mapStateToProps state →
  let c := features_base_connection state in
  let f := features_base_conference state in
  let establishing :=
    truthy (connecting c)
    || (truthy (connection c)
        && (negb (truthy (membersOnly f))
            && (truthy (joining f)
                || (negb (truthy (conference f)) && negb (truthy (leaving f)))))) in
  ∃ tree,
    ConferenceJs._renderContent this = Ok tree
    ∧ renders LoadingIndicator tree
      = establishing
        && (reducedUI (features_base_responsive_ui state)
            || negb (strict_equals_string (getConferenceName state) "toolbox_disabled")).
Proof.
  intros Hprops c f establishing. subst c f establishing.
  destruct (overlay_from_props this) as (tree & Htree & _ & Hoverlay).
  exists tree. split; [done |].
  by rewrite Hoverlay, Hprops, connecting_unfold_js, reducedUI_unfold,
    toolboxEnabled_unfold.
Qed.

Lemma overlay_from_store_state_witness :
  ∃ tree,
    @ConferenceJs._renderContent sample_imports
      (connected_instance sample_imports
         (session_state (VObj 1) VUndefined VUndefined VUndefined VUndefined))
    = Ok tree
    ∧ renders LoadingIndicator tree = true.
Proof.
  apply (@overlay_from_store_state sample_imports
           (session_state (VObj 1) VUndefined VUndefined VUndefined VUndefined)
           (connected_instance sample_imports
              (session_state (VObj 1) VUndefined VUndefined VUndefined VUndefined))).
  reflexivity.
Defined.

(** ** The back press handler and its later effects *)

(** X6. The back press handler itself dispatches nothing and leaves the
    registry and the existing promises as they are: it creates two promises
    and either makes one picture-in-picture request, with nothing queued, or
    (with picture-in-picture off) makes no request and queues the one job
    that will navigate away. Navigation therefore only ever happens after
    the handler has returned. *)
Theorem back_press_handler_defers (this : Conference) (w : World) :
  let w1 := (_onHardwareBackPress this w).2 in
  dispatched w1 = dispatched w
  ∧ registry_calls w1 = registry_calls w
  ∧ listeners w1 = listeners w
  ∧ take (length (promises w)) (promises w1) = promises w
  ∧ length (promises w1) = length (promises w) + 2
  ∧ (if truthy (_pictureInPictureEnabled (props this))
     then pip_requests w1 = pip_requests w ++ [length (promises w)]
          ∧ microtasks w1 = microtasks w
     else pip_requests w1 = pip_requests w
          ∧ microtasks w1
            = microtasks w
              ++ [ReactionJob {| onRejected := NavigateAway this;
                                 derived := S (length (promises w)) |}
                    (Rejected (VError "PiP not enabled"))]).
Proof.
  intros w1. subst w1.
  destruct (truthy (_pictureInPictureEnabled (props this))) eqn:Hpip.
  - rewrite (press_with_pip _ _ Hpip). simpl.
    rewrite take_app_length, length_app. simpl. by split_and!.
  - rewrite (press_without_pip _ _ Hpip). simpl.
    rewrite take_app_length, length_app. simpl. by split_and!.
Qed.

Lemma back_presses_nil (fuel : nat) (this : Conference) (w : World) :
  back_presses fuel this [] w = w.
Proof. reflexivity. Qed.

Lemma back_presses_cons (fuel : nat) (this : Conference) (o : PipOutcome)
    (os : list PipOutcome) (w : World) :
  back_presses fuel this (o :: os) w
  = back_presses fuel this os (back_press fuel this o w).2.
Proof. reflexivity. Qed.

(** X7. Back presses do not coalesce. From a world whose job queue is empty,
    a sequence of back presses, each followed to its end, dispatches one
    [appNavigate(undefined)] for every press that finds picture-in-picture
    off or has its request rejected, in order, and nothing else; it makes one
    request per press when picture-in-picture is on and none otherwise;
    it leaves the job queue empty, the registry untouched and no rejection
    unhandled. *)
Theorem back_presses_accumulate (fuel : nat) (this : Conference)
    (outcomes : list PipOutcome) (w : World) :
  microtasks w = [] →
  let enabled := truthy (_pictureInPictureEnabled (props this)) in
  let w' := back_presses (S fuel) this outcomes w in
  dispatched w'
  = dispatched w
    ++ flat_map (λ o, if negb enabled || is_failure o
                      then [appNavigate VUndefined] else []) outcomes
  ∧ length (pip_requests w')
    = length (pip_requests w) + (if enabled then length outcomes else 0)
  ∧ microtasks w' = []
  ∧ unhandled_rejections w' = unhandled_rejections w
  ∧ registry_calls w' = registry_calls w
  ∧ listeners w' = listeners w.
Proof.
  intros Hidle enabled w'. subst w'.
  revert w Hidle. induction outcomes as [|o os IH]; intros w Hidle.
  - rewrite back_presses_nil. simpl. rewrite app_nil_r.
    split_and!; try done. by destruct enabled; lia.
  - rewrite back_presses_cons.
    destruct (truthy (_pictureInPictureEnabled (props this))) eqn:Hpip;
      subst enabled.
    + rewrite (back_press_with_pip _ _ _ _ Hidle Hpip). cbn [snd].
      match goal with |- context [back_presses _ _ _ ?w1] =>
        destruct (IH w1 eq_refl) as (Hd & Hr & Hq & Hu & Hc & Hl) end.
      rewrite Hd, Hr, Hq, Hu, Hc, Hl. clear IH Hd Hr Hq Hu Hc Hl.
      unfold unhandled_rejections.
      cbn [dispatched registry_calls listeners pip_requests promises microtasks
           flat_map negb orb].
      rewrite List.filter_app, settled_pair_handled, app_nil_r, length_app.
      rewrite <- app_assoc.
      split_and!; try done; [by destruct o | simpl; lia].
    + rewrite (back_press_without_pip _ _ _ _ Hidle Hpip). cbn [snd].
      match goal with |- context [back_presses _ _ _ ?w1] =>
        destruct (IH w1 eq_refl) as (Hd & Hr & Hq & Hu & Hc & Hl) end.
      rewrite Hd, Hr, Hq, Hu, Hc, Hl. clear IH Hd Hr Hq Hu Hc Hl.
      unfold unhandled_rejections.
      cbn [dispatched registry_calls listeners pip_requests promises microtasks
           flat_map negb orb].
      rewrite List.filter_app, settled_pair_handled, app_nil_r.
      rewrite <- app_assoc.
      by split_and!.
Qed.

Lemma back_presses_accumulate_witness :
  dispatched
    (back_presses 1 (sample_instance (sample_props false false true false (VBool true)))
       [PipFails VNull; PipSucceeds VNull; PipNeverSettles; PipFails VNull] idle_world)
  = [appNavigate VUndefined; appNavigate VUndefined].
Proof.
  apply (back_presses_accumulate 0
           (sample_instance (sample_props false false true false (VBool true)))
           [PipFails VNull; PipSucceeds VNull; PipNeverSettles; PipFails VNull]
           idle_world).
  reflexivity.
Defined.

(** ** part_000 beside Conference.js *)

(** X8. Where the identifier [state] resolves and the flag
    "toolbox.enabled" is a boolean or has no value, part_000 mounts what
    Conference.js mounts for the same instance with [_toolboxEnabled] set to
    that flag, in the reduced UI and outside it. *)
Theorem part000_mounts_like_conference_js `{Imports}
    (globalThis : gmap string State) (state : State) (this : Conference) :
  globalThis !! "state" = Some state →
  boolean_or_nullish (getFeatureFlag state "toolbox.enabled") = true →
  _toolboxEnabled (props this) = truthy (getFeatureFlag state "toolbox.enabled") →
  ∃ part js,
    Part000._renderContent globalThis this = Ok part
    ∧ ConferenceJs._renderContent this = Ok js
    ∧ mount part = mount js.
Proof.
  intros Hstate Hkind Henabled.
  unfold Part000._renderContent, Part000.free_identifier.
  destruct this as [[tile ? ? conn ? ? ? te red ?] ? ? ?].
  cbn [props _connecting _filmstripVisible _largeVideoParticipantId _reducedUI
       _shouldDisplayTileView _toolboxVisible _toolboxEnabled] in *.
  rewrite Hstate. subst te.
  cbn [mbind mret Result_bind Result_ret].
  destruct (getFeatureFlag state "toolbox.enabled") as [| |b| | | | | |];
    try discriminate Hkind;
    try destruct b; destruct red, tile, conn;
    do 2 eexists; split_and!; reflexivity.
Qed.

Lemma part000_mounts_like_conference_js_witness :
  ∃ part js,
    @Part000._renderContent sample_imports global_with_state
      (sample_instance (sample_props false true true false VNull)) = Ok part
    ∧ @ConferenceJs._renderContent sample_imports
        (sample_instance (sample_props false true true false VNull)) = Ok js
    ∧ mount part = mount js.
Proof.
  apply (@part000_mounts_like_conference_js sample_imports global_with_state
           (lobby_state (VStr "room1"))
           (sample_instance (sample_props false true true false VNull)));
    reflexivity.
Defined.

(** ** Back presses and settlements in any order *)

Lemma paired_unarmed (ps : list Promise) :
  Forall (λ c, reactions c = []) ps → paired ps.
Proof.
  intros Hall p c Hp. left.
  by eapply (proj1 (Forall_lookup _ _) Hall).
Qed.

Lemma paired_insert_unarmed (ps : list Promise) (p : nat) (c' : Promise) :
  paired ps → reactions c' = [] → paired (<[p := c']> ps).
Proof.
  intros Hps Hc' q c Hq.
  destruct (decide (p = q)) as [-> | Hne].
  - apply list_lookup_insert_Some in Hq as [(_ & <- & _) | (Hne & _)]; [by left | done].
  - rewrite list_lookup_insert_ne in Hq by done.
    destruct (Hps q c Hq) as [Hnone | (cb & d & Hone & Hd & Hdnone)]; [by left |].
    right. destruct (decide (p = S q)) as [-> | Hne'].
    + exists cb, c'. split_and!; try done.
      apply list_lookup_insert_eq. by eapply lookup_lt_Some.
    + exists cb, d. split_and!; try done.
      by rewrite list_lookup_insert_ne.
Qed.

Lemma paired_app (ps : list Promise) (a b : Promise) :
  paired ps →
  (reactions a = []
   ∨ ∃ cb, reactions a = [{| onRejected := cb; derived := S (length ps) |}]) →
  reactions b = [] →
  paired (ps ++ [a; b]).
Proof.
  intros Hps Ha Hb q c Hq.
  destruct (decide (q < length ps)) as [Hlt | Hge].
  - rewrite lookup_app_l in Hq by done.
    destruct (Hps q c Hq) as [Hnone | (cb & d & Hone & Hd & Hdnone)]; [by left |].
    right. exists cb, d. split_and!; try done. by apply lookup_app_l_Some.
  - rewrite lookup_app_r in Hq by lia.
    destruct (q - length ps) as [|[|n]] eqn:Hdiff; simpl in Hq.
    + injection Hq as <-.
      destruct Ha as [Hnone | (cb & Hone)]; [by left |].
      right. exists cb, b.
      assert (q = length ps) as -> by lia.
      split_and!; try done. apply lookup_second_new.
    + injection Hq as <-. by left.
    + discriminate.
Qed.

Lemma waiting_insert (ps : list Promise) (p : nat) (c c' : Promise) :
  ps !! p = Some c →
  waiting (<[p := c']> ps) + length (reactions c)
  = waiting ps + length (reactions c').
Proof.
  unfold waiting. revert p. induction ps as [|x ps IH]; intros p Hp; [done |].
  destruct p as [|p]; simpl in *.
  - injection Hp as ->. rewrite !length_app. lia.
  - rewrite !length_app. specialize (IH p Hp). lia.
Qed.

Lemma waiting_app (ps qs : list Promise) : waiting (ps ++ qs) = waiting ps + waiting qs.
Proof. unfold waiting. by rewrite flat_map_app, length_app. Qed.

Ltac no_navigation :=
  exists 0; simpl; rewrite ?app_nil_r; split; [done | lia].

Lemma settle_then_drain (fuel : nat) (promise : nat) (s : PromiseState) (w : World) :
  microtasks w = [] →
  paired (promises w) →
  let w1 := run_microtasks (S fuel) (settle promise s w) in
  microtasks w1 = []
  ∧ paired (promises w1)
  ∧ registry_calls w1 = registry_calls w
  ∧ listeners w1 = listeners w
  ∧ pip_requests w1 = pip_requests w
  ∧ ∃ j, dispatched w1 = dispatched w ++ replicate j (appNavigate VUndefined)
         ∧ (j + waiting (promises w1) ≤ waiting (promises w))%nat.
Proof.
  intros Hq Hps w1. subst w1.
  destruct w as [ds rc ls rq ps q]. simpl in Hq, Hps. subst q.
  unfold settle. cbn [promises].
  destruct (ps !! promise) as [[st rs h]|] eqn:Hp;
    [destruct st |];
    try (rewrite run_microtasks_idle by done; split_and!; try done; no_navigation).
  destruct (Hps promise _ Hp) as [Hnone | (cb & d & Hone & Hd & Hdnone)];
    simpl in Hnone || simpl in Hone; subst rs.
  - unfold with_microtasks, with_promises.
    cbn [dispatched registry_calls listeners pip_requests promises microtasks map app].
    rewrite run_microtasks_idle by done.
    cbn [dispatched registry_calls listeners pip_requests promises microtasks].
    split_and!; try done; [by apply paired_insert_unarmed |].
    pose proof (waiting_insert ps promise _
                  {| pstate := s; reactions := []; isHandled := h |} Hp) as Hw.
    simpl in Hw. no_navigation.
  - unfold with_microtasks, with_promises.
    cbn [dispatched registry_calls listeners pip_requests promises microtasks map app].
    rewrite run_microtasks_step.
    pose proof (waiting_insert ps promise _
                  {| pstate := s; reactions := []; isHandled := h |} Hp) as Hw.
    simpl in Hw.
    assert (Hps1 : paired (<[promise := {| pstate := s; reactions := [];
                                           isHandled := h |}]> ps))
      by (by apply paired_insert_unarmed).
    assert (Hd1 : <[promise := {| pstate := s; reactions := []; isHandled := h |}]> ps
                  !! S promise = Some d)
      by (rewrite list_lookup_insert_ne by lia; done).
    destruct d as [std rsd hd]. simpl in Hdnone. subst rsd.
    destruct s as [| value | reason]; unfold run_job; cbn [onRejected derived].
    + rewrite run_microtasks_idle by done.
      cbn [dispatched registry_calls listeners pip_requests promises microtasks].
      split_and!; try done. no_navigation.
    + unfold settle. cbn [promises]. rewrite Hd1.
      destruct std;
        unfold with_microtasks, with_promises;
        cbn [dispatched registry_calls listeners pip_requests promises microtasks
             map app];
        rewrite run_microtasks_idle by done;
        cbn [dispatched registry_calls listeners pip_requests promises microtasks];
        split_and!; try done; try (by apply paired_insert_unarmed);
        try (pose proof (waiting_insert _ (S promise) _
                           {| pstate := Fulfilled value; reactions := [];
                              isHandled := hd |} Hd1) as Hw1; simpl in Hw1);
        no_navigation.
    + destruct cb as [this']. unfold call, dispatch, with_dispatched.
      cbn [dispatched registry_calls listeners pip_requests promises microtasks].
      unfold settle. cbn [promises]. rewrite Hd1.
      destruct std;
        unfold with_microtasks, with_promises;
        cbn [dispatched registry_calls listeners pip_requests promises microtasks
             map app];
        rewrite run_microtasks_idle by done;
        cbn [dispatched registry_calls listeners pip_requests promises microtasks];
        split_and!; try done; try (by apply paired_insert_unarmed);
        try (pose proof (waiting_insert _ (S promise) _
                           {| pstate := Fulfilled VUndefined; reactions := [];
                              isHandled := hd |} Hd1) as Hw1; simpl in Hw1);
        (exists 1; split; [done | lia]).
Qed.

Lemma press_then_drain (fuel : nat) (this : Conference) (w : World) :
  microtasks w = [] →
  paired (promises w) →
  let w1 := run_microtasks (S fuel) (_onHardwareBackPress this w).2 in
  microtasks w1 = []
  ∧ paired (promises w1)
  ∧ registry_calls w1 = registry_calls w
  ∧ listeners w1 = listeners w
  ∧ ∃ j, dispatched w1 = dispatched w ++ replicate j (appNavigate VUndefined)
         ∧ (j + waiting (promises w1) ≤ waiting (promises w) + 1)%nat.
Proof.
  intros Hq Hps w1. subst w1.
  destruct (truthy (_pictureInPictureEnabled (props this))) eqn:Hpip.
  - rewrite (press_with_pip _ _ Hpip), Hq. cbn [snd].
    rewrite run_microtasks_idle by done.
    cbn [dispatched registry_calls listeners pip_requests promises microtasks].
    split_and!; try done.
    + apply paired_app; [done | right; by eexists | done].
    + exists 0. simpl. rewrite app_nil_r, waiting_app.
      split; [done |]. unfold waiting at 2. simpl. lia.
  - rewrite (press_without_pip _ _ Hpip), Hq. cbn [snd app].
    rewrite run_microtasks_step, run_rejection_job.
    rewrite run_microtasks_idle by done.
    cbn [dispatched registry_calls listeners pip_requests promises microtasks].
    split_and!; try done.
    + apply paired_app; [done | by left | done].
    + exists 1. rewrite waiting_app. split; [done |].
      unfold waiting at 2. simpl. lia.
Qed.

Lemma events_then_drain (fuel : nat) (this : Conference) (events : list Event)
    (w : World) :
  microtasks w = [] →
  paired (promises w) →
  let w' := run_events (S fuel) this events w in
  microtasks w' = []
  ∧ registry_calls w' = registry_calls w
  ∧ listeners w' = listeners w
  ∧ ∃ k, dispatched w' = dispatched w ++ replicate k (appNavigate VUndefined)
         ∧ (k + waiting (promises w') ≤ waiting (promises w) + presses events)%nat.
Proof.
  revert w. induction events as [|e events IH]; intros w Hq Hps.
  - simpl. split_and!; try done. exists 0. simpl. rewrite app_nil_r.
    split; [done |]. unfold presses. simpl. lia.
  - cbn [run_events].
    assert (Hstep :
      let w1 := handle_event (S fuel) this e w in
      microtasks w1 = [] ∧ paired (promises w1)
      ∧ registry_calls w1 = registry_calls w ∧ listeners w1 = listeners w
      ∧ ∃ j, dispatched w1 = dispatched w ++ replicate j (appNavigate VUndefined)
             ∧ (j + waiting (promises w1)
                ≤ waiting (promises w) + presses [e])%nat).
    { destruct e as [| promise o]; cbn [handle_event].
      - apply (press_then_drain fuel this w Hq Hps).
      - destruct o as [value | reason |]; unfold platform_settles.
        + destruct (settle_then_drain fuel promise (Fulfilled value) w Hq Hps)
            as (H1 & H2 & H3 & H4 & _ & j & H5 & H6).
          split_and!; try done. exists j. split; [done |].
          unfold presses; cbn [List.filter is_back_press length]; lia.
        + destruct (settle_then_drain fuel promise (Rejected reason) w Hq Hps)
            as (H1 & H2 & H3 & H4 & _ & j & H5 & H6).
          split_and!; try done. exists j. split; [done |].
          unfold presses; cbn [List.filter is_back_press length]; lia.
        + rewrite run_microtasks_idle by done. split_and!; try done.
          exists 0. simpl. rewrite app_nil_r. split; [done |].
          unfold presses; cbn [List.filter is_back_press length]; lia. }
    destruct Hstep as (Hq1 & Hps1 & Hrc1 & Hls1 & j & Hd1 & Hj).
    destruct (IH _ Hq1 Hps1) as (Hq' & Hrc' & Hls' & k & Hd' & Hk).
    split_and!; [done | congruence | congruence |].
    exists (j + k). split.
    + rewrite Hd', Hd1, <- app_assoc. f_equal. by rewrite replicate_add.
    + assert (presses (e :: events) = presses [e] + presses events) as ->.
      { unfold presses. simpl. destruct (is_back_press e); simpl; lia. }
      lia.
Qed.

Lemma waiting_unarmed (ps : list Promise) :
  Forall (λ c, reactions c = []) ps → waiting ps = 0.
Proof.
  unfold waiting. induction 1 as [|c ps Hc _ IH]; [done |].
  simpl. by rewrite Hc.
Qed.

(** X9. However back presses and settlements follow one another (requests
    settled late, twice, or never), starting with an empty job queue and no
    reaction waiting: the store only ever receives [appNavigate(undefined)]
    actions, at most one for each back press; the job queue is empty again
    after every event and the registry is left as it was. *)
Theorem navigations_bounded_by_presses (fuel : nat) (this : Conference)
    (events : list Event) (w : World) :
  microtasks w = [] →
  Forall (λ c, reactions c = []) (promises w) →
  let w' := run_events (S fuel) this events w in
  microtasks w' = []
  ∧ registry_calls w' = registry_calls w
  ∧ listeners w' = listeners w
  ∧ ∃ k, dispatched w' = dispatched w ++ replicate k (appNavigate VUndefined)
         ∧ (k ≤ presses events)%nat.
Proof.
  intros Hq Hall w'. subst w'.
  destruct (events_then_drain fuel this events w Hq (paired_unarmed _ Hall))
    as (Hq' & Hrc & Hls & k & Hd & Hk).
  rewrite (waiting_unarmed _ Hall) in Hk.
  split_and!; try done. exists k. split; [done | lia].
Qed.

Lemma navigations_bounded_by_presses_witness :
  ∃ k,
    dispatched
      (run_events 1 (sample_instance (sample_props false false true false (VBool true)))
         [BackPress; BackPress; Settles 0 (PipFails VNull);
          Settles 0 (PipFails VNull); Settles 2 (PipSucceeds VNull)] idle_world)
    = dispatched idle_world ++ replicate k (appNavigate VUndefined)
    ∧ (k ≤ 2)%nat.
Proof.
  apply (navigations_bounded_by_presses 0
           (sample_instance (sample_props false false true false (VBool true)))
           [BackPress; BackPress; Settles 0 (PipFails VNull);
            Settles 0 (PipFails VNull); Settles 2 (PipSucceeds VNull)] idle_world);
    [reflexivity | constructor].
Defined.

(** ** From the store state to the screen of part_000 *)

Lemma reducedUI_unfold_part000 `{Imports} (state : State) :
  Part000.Mapped._reducedUI (Part000._mapStateToProps state)
  = reducedUI (features_base_responsive_ui state).
Proof. by destruct state as [[? ?] [? ? ? ?] [? ?] ?]. Qed.

(** X10. For a component of part_000 whose [_connecting] and [_reducedUI]
    props are those its projection derives from a store state, in a runtime
    without a global [state]: with the reduced UI on in the store, the
    content is built and holds the loading indicator exactly when the
    transport is connecting, or is connected while the room is being joined
    or there is neither a conference nor a leave in progress (the members-only
    flag plays no part); with the reduced UI off, building the content raises
    the ReferenceError. *)
Theorem part000_screen_from_store_state `{Imports} (globalThis : gmap string State)
    (state : State) (this : Conference) :
  globalThis !! "state" = None →
  _connecting (props this)
  = Part000.Mapped._connecting (Part000._mapStateToProps state) →
  _reducedUI (props this)
  = Part000.Mapped._reducedUI (Part000._mapStateToProps state) →
  let c := features_base_connection state in
  let f := features_base_conference state in
  if reducedUI (features_base_responsive_ui state)
  then ∃ tree,
         Part000._renderContent globalThis this = Ok tree
         ∧ renders LoadingIndicator tree
           = truthy (connecting c)
             || (truthy (connection c)
                 && (truthy (joining f)
                     || (negb (truthy (conference f)) && negb (truthy (leaving f)))))
  else Part000._renderContent globalThis this = Throw (ReferenceError "state").
Proof.
  intros Hunbound Hconnecting Hreduced c f. subst c f.
  rewrite connecting_unfold_part000 in Hconnecting.
  rewrite reducedUI_unfold_part000 in Hreduced.
  unfold Part000._renderContent, Part000.free_identifier.
  rewrite Hreduced, Hunbound.
  destruct (reducedUI (features_base_responsive_ui state)); [| done].
  eexists. split; [reflexivity |].
  rewrite <- Hconnecting. unfold _renderContentForReducedUi.
  by destruct (_connecting (props this)).
Qed.

Lemma part000_screen_from_store_state_witness :
  ∃ tree,
    @Part000._renderContent sample_imports ∅
      (sample_instance (sample_props false true true true VNull)) = Ok tree
    ∧ renders LoadingIndicator tree = true.
Proof.
  apply (@part000_screen_from_store_state sample_imports ∅ reduced_connecting_state
           (sample_instance (sample_props false true true true VNull)));
    reflexivity.
Defined.
